(** * Real-time messaging gateway of the musician platform

    A shallow embedding of [websocket_manager.py], [routes/websocket.py],
    [routes/messages.py] and the startup part of [server.py], with the
    properties of the design document stated and settled against it.

    Conventions.
    - Identifiers (users, threads, messages) are the strings the code
      handles ([str(user.id)], [thread_id]); a UUID column compared with a
      JSON value matches only a JSON string holding the same text.
    - A [WebSocket] object is a natural number (its object identity).
    - Tables are finite maps keyed by primary key; [thread_participants],
      whose primary key is the whole row, is a finite set of rows.
    - An instant is an integer, the reading of the clock; a frame carries
      it as a number where the code sends its ISO text.
    - [await] points are sequential steps; every effect the outside can
      observe is appended to a trace.  Logging is not part of the model. *)

From stdpp Require Import gmap strings list fin_maps fin_sets.
From Stdlib Require Import ZArith.

Set Warnings "-register-all,-clear-no-such-hyp".

Open Scope string_scope.
Open Scope list_scope.

(** ** JSON values, as [json.loads] produces them *)

Inductive json :=
| JNull
| JBool (b : bool)
| JNum (n : Z)
| JStr (s : string)
| JList (l : list json)
| JDict (items : list (string * json)).

(** Python truthiness of a decoded value ([if not thread_id ...]). *)
Definition truthy (v : json) : bool :=
  match v with
  | JNull => false
  | JBool b => b
  | JNum n => negb (n =? 0)%Z
  | JStr s => negb (String.eqb s "")
  | JList l => match l with [] => false | _ => true end
  | JDict kv => match kv with [] => false | _ => true end
  end.

Fixpoint assoc (key : string) (items : list (string * json)) : option json :=
  match items with
  | [] => None
  | (k, v) :: rest => if String.eqb k key then Some v else assoc key rest
  end.

(** [value == "text"] for a decoded value. *)
Definition str_eqb (v : json) (text : string) : bool :=
  match v with JStr s => String.eqb s text | _ => false end.

(** [column == value] in a query: an identifier column against a bound
    parameter. *)
Definition col_eqb (column : string) (v : json) : bool := str_eqb v column.

(** ** Exceptions *)

Inductive exn :=
| WebSocketDisconnect
| JSONDecodeError
| AttributeError
| TypeError
| UnboundLocalError (name : string)
| SendError
| RedisError
| IntegrityError
| MultipleResultsFound
| HTTPException (status_code : Z) (detail : string).

Inductive result (A : Type) :=
| Ok (a : A)
| Raise (e : exn).
Arguments Ok {A} a.
Arguments Raise {A} e.

(** ** The relational store ([models.py]) *)

Record DirectMessageThread := {
  thread_created_at : Z;
  thread_updated_at : Z;
}.

Record DirectMessage := {
  dm_thread_id : json;
  dm_sender_id : string;
  dm_content : json;
  dm_attachments : json;
  dm_read_by : option (list string);
  dm_created_at : Z;
}.

Record Store := {
  users : gmap string bool;                      (* id -> is_active *)
  threads : gmap string DirectMessageThread;     (* direct_message_threads *)
  thread_participants : gset (string * string);  (* (thread_id, user_id) *)
  messages : gmap string DirectMessage;          (* direct_messages *)
}.

Definition set_messages (ms : gmap string DirectMessage) (s : Store) : Store :=
  {| users := users s; threads := threads s;
     thread_participants := thread_participants s; messages := ms |}.

Definition set_threads (ts : gmap string DirectMessageThread) (s : Store) : Store :=
  {| users := users s; threads := ts;
     thread_participants := thread_participants s; messages := messages s |}.

Definition set_thread_participants (ps : gset (string * string)) (s : Store) : Store :=
  {| users := users s; threads := threads s;
     thread_participants := ps; messages := messages s |}.

(** [select(thread_participants).where(thread_id == t, user_id == u)],
    then [result.first()] is not None. *)
Definition is_participant (thread_id : json) (user_id : string) (s : Store) : bool :=
  match thread_id with
  | JStr t => bool_decide ((t, user_id) ∈ thread_participants s)
  | _ => false
  end.

(** [select(thread_participants.c.user_id).where(thread_id == t)], all rows. *)
Definition participants_of (thread_id : json) (s : Store) : list string :=
  (elements (filter (λ row, col_eqb row.1 thread_id = true)
                    (thread_participants s))).*2.

(** [select(DirectMessage).where(id == m, thread_id == t)],
    [scalar_one_or_none()]; the identifier is a primary key, so at most one
    row matches. *)
Definition find_message (message_id thread_id : json) (s : Store)
  : option (string * DirectMessage) :=
  match message_id, thread_id with
  | JStr m, JStr t =>
      match messages s !! m with
      | Some msg => if col_eqb t (dm_thread_id msg) then Some (m, msg) else None
      | None => None
      end
  | _, _ => None
  end.

(** ** The world one gateway instance runs in *)

Inductive event :=
| EvAccept (ws : nat)
| EvClose (ws : nat) (code : Z) (reason : string)
| EvSendJson (ws : nat) (payload : json)
| EvSendFailed (ws : nat) (payload : json)
| EvDbCommit
| EvPublish (payload : json).

(** Writes a database session holds until [commit]. *)
Inductive write :=
| Insert (m : DirectMessage)
| SetReadBy (message_id : string) (remembered : option (list string))
    (read_by : list string).

Record ConnectionManager := {
  active_connections : gmap string (gset nat);
  redis : bool;    (* [self.redis] is set *)
  pubsub : bool;   (* [self.pubsub] is set and subscribed to "messages" *)
}.

Record World := {
  db : Store;
  pending : list write;
  manager : ConnectionManager;
  bus : list json;     (* payloads published on the channel "messages" *)
  clock : Z;           (* what [datetime.now] returns *)
  next_uuid : nat;     (* how many identifiers [uuid4] has handed out *)
  trace : list event;
}.

(** What the handlers cannot control: how many sessions the generator
    [get_db()] of [database.py] yields (that module is not among the
    sources; a FastAPI session dependency yields one), the identifiers
    [uuid.uuid4] returns, the sockets on which [send_json] raises, and
    whether the Redis server answers. *)
Record Env := {
  get_db : nat;
  uuid4 : nat → string;
  broken : gset nat;
  redis_up : bool;
}.

Definition set_db (s : Store) (w : World) : World :=
  {| db := s; pending := pending w; manager := manager w; bus := bus w;
     clock := clock w; next_uuid := next_uuid w; trace := trace w |}.

Definition set_pending (p : list write) (w : World) : World :=
  {| db := db w; pending := p; manager := manager w; bus := bus w;
     clock := clock w; next_uuid := next_uuid w; trace := trace w |}.

Definition set_manager (m : ConnectionManager) (w : World) : World :=
  {| db := db w; pending := pending w; manager := m; bus := bus w;
     clock := clock w; next_uuid := next_uuid w; trace := trace w |}.

Definition set_bus (b : list json) (w : World) : World :=
  {| db := db w; pending := pending w; manager := manager w; bus := b;
     clock := clock w; next_uuid := next_uuid w; trace := trace w |}.

Definition set_next_uuid (n : nat) (w : World) : World :=
  {| db := db w; pending := pending w; manager := manager w; bus := bus w;
     clock := clock w; next_uuid := n; trace := trace w |}.

Definition emit (e : event) (w : World) : World :=
  {| db := db w; pending := pending w; manager := manager w; bus := bus w;
     clock := clock w; next_uuid := next_uuid w; trace := trace w ++ [e] |}.

(** ** A state and exception monad for the coroutines *)

Definition M (A : Type) : Type := World → World * result A.

Definition ret {A} (a : A) : M A := λ w, (w, Ok a).
Definition raise {A} (e : exn) : M A := λ w, (w, Raise e).

Definition bind {A B} (m : M A) (k : A → M B) : M B :=
  λ w, match m w with
       | (w', Ok a) => k a w'
       | (w', Raise e) => (w', Raise e)
       end.

(** [try: m  except Exception: h]. *)
Definition try_except {A} (m : M A) (h : exn → M A) : M A :=
  λ w, match m w with
       | (w', Ok a) => (w', Ok a)
       | (w', Raise e) => h e w'
       end.

Definition modify (f : World → World) : M unit := λ w, (f w, Ok tt).
Definition gets {A} (f : World → A) : M A := λ w, (w, Ok (f w)).

Declare Scope gateway_scope.
Delimit Scope gateway_scope with gw.
Notation "x <- m ;; k" := (bind m (λ x, k))
  (at level 100, m at next level, right associativity,
   format "'[v' x  <-  m  ;;  '/' k ']'") : gateway_scope.
Notation "m ;;; k" := (bind m (λ _, k))
  (at level 100, right associativity,
   format "'[v' m  ;;;  '/' k ']'") : gateway_scope.
Open Scope gateway_scope.

(** ** [websocket_manager.py]: the connection registry *)

Section Gateway.
Context (env : Env).

(** [await connection.send_json(message)]: raises on a broken socket. *)
Definition send_json (ws : nat) (payload : json) : M unit :=
  λ w, if decide (ws ∈ broken env)
       then (emit (EvSendFailed ws payload) w, Raise SendError)
       else (emit (EvSendJson ws payload) w, Ok tt).

Definition registry_add (ws : nat) (user_id : string)
    (m : ConnectionManager) : ConnectionManager :=
  let current := default ∅ (active_connections m !! user_id) in
  {| active_connections := <[user_id := {[ws]} ∪ current]> (active_connections m);
     redis := redis m; pubsub := pubsub m |}.

(** [ConnectionManager.connect]. *)
Definition connect (ws : nat) (user_id : string) : M unit :=
  modify (emit (EvAccept ws)) ;;;
  modify (λ w, set_manager (registry_add ws user_id (manager w)) w).

Definition registry_discard (ws : nat) (user_id : string)
    (m : ConnectionManager) : ConnectionManager :=
  match active_connections m !! user_id with
  | Some conns =>
      let conns' := conns ∖ {[ws]} in
      {| active_connections :=
           if decide (conns' = ∅) then delete user_id (active_connections m)
           else <[user_id := conns']> (active_connections m);
         redis := redis m; pubsub := pubsub m |}
  | None => m
  end.

(** [ConnectionManager.disconnect]. *)
Definition disconnect (ws : nat) (user_id : string) : M unit :=
  modify (λ w, set_manager (registry_discard ws user_id (manager w)) w).

(** The first loop of [send_personal_message]: one [send_json] per
    connection, a failing one remembered in [disconnected] (a set in the
    source; the connections iterated are distinct, so a list holds it). *)
Fixpoint send_each (message : json) (conns : list nat) (disconnected : list nat)
  : M (list nat) :=
  match conns with
  | [] => ret disconnected
  | connection :: rest =>
      d <- try_except (send_json connection message ;;; ret disconnected)
                      (λ _, ret (disconnected ++ [connection])) ;;
      send_each message rest d
  end.

(** The second loop: [for conn in disconnected: self.disconnect(conn, user_id)]. *)
Fixpoint disconnect_each (conns : list nat) (user_id : string) : M unit :=
  match conns with
  | [] => ret tt
  | conn :: rest => disconnect conn user_id ;;; disconnect_each rest user_id
  end.

(** [ConnectionManager.send_personal_message]. *)
Definition send_personal_message (message : json) (user_id : string) : M unit :=
  registry <- gets (λ w, active_connections (manager w)) ;;
  match registry !! user_id with
  | Some conns =>
      disconnected <- send_each message (elements conns) [] ;;
      disconnect_each disconnected user_id
  | None => ret tt
  end.

(** [ConnectionManager.broadcast_to_thread]. *)
Fixpoint broadcast_to_thread (message : json) (participant_ids : list string)
  : M unit :=
  match participant_ids with
  | [] => ret tt
  | user_id :: rest =>
      send_personal_message message user_id ;;;
      broadcast_to_thread message rest
  end.

(** [await self.redis.publish("messages", json.dumps(message))]. *)
Definition redis_publish (message : json) : M unit :=
  λ w, if redis_up env
       then (emit (EvPublish message) (set_bus (bus w ++ [message]) w), Ok tt)
       else (w, Raise RedisError).

(** [ConnectionManager.publish_message]. *)
Definition publish_message (message : json) : M unit :=
  has_redis <- gets (λ w, redis (manager w)) ;;
  if (has_redis : bool)
  then try_except (redis_publish message) (λ _, ret tt)
  else ret tt.

(** [ConnectionManager.initialize]: connects to Redis and subscribes to the
    channel; a failure is logged and leaves the manager as it was. *)
Definition initialize : M unit :=
  modify (λ w,
    if redis_up env
    then set_manager {| active_connections := active_connections (manager w);
                        redis := true; pubsub := true |} w
    else w).

(** [data.get("user_ids", [])] followed by the loop over it: the loop
    variable is bound to each element in turn. *)
Definition user_ids_of (data : json) : result (list json) :=
  match data with
  | JDict items =>
      match assoc "user_ids" items with
      | None => Ok []
      | Some (JList l) => Ok l
      | Some (JStr s) => Ok ((λ c, JStr (String c "")) <$> String.list_ascii_of_string s)
      | Some (JDict kv) => Ok ((λ p, JStr p.1) <$> kv)
      | Some _ => Raise TypeError
      end
  | _ => Raise AttributeError
  end.

(** The inner loop of [handle_redis_messages].  The registry is keyed by
    strings: another hashable value is no key of it, a list or a dict
    cannot be looked up at all. *)
Fixpoint deliver_listed (data : json) (user_ids : list json) : M unit :=
  match user_ids with
  | [] => ret tt
  | u :: rest =>
      match u with
      | JStr user_id => send_personal_message data user_id
      | JList _ | JDict _ => raise TypeError
      | _ => ret tt
      end ;;;
      deliver_listed data rest
  end.

(** The body of the [async for] of [handle_redis_messages], for the
    payloads the subscription yields. *)
Fixpoint forward_payloads (payloads : list json) : M unit :=
  match payloads with
  | [] => ret tt
  | data :: rest =>
      match user_ids_of data with
      | Ok ids => deliver_listed data ids ;;; forward_payloads rest
      | Raise e => raise e
      end
  end.

(** [ConnectionManager.handle_redis_messages], run on what the channel
    has carried. *)
Definition handle_redis_messages : M unit :=
  subscribed <- gets (λ w, pubsub (manager w)) ;;
  if (subscribed : bool)
  then payloads <- gets bus ;;
       try_except (forward_payloads payloads) (λ _, ret tt)
  else ret tt.

(** ** Database sessions *)

(** [message_data.get(key, default)]; only a dict has [.get]. *)
Definition dict_get (d : json) (key : string) (default : json) : M json :=
  match d with
  | JDict items => ret (match assoc key items with Some v => v | None => default end)
  | _ => raise AttributeError
  end.

(** [db.add(obj)]. *)
Definition db_add (m : DirectMessage) : M unit :=
  modify (λ w, set_pending (pending w ++ [Insert m]) w).

(** A Python list a handler holds: its elements, and whether it is the
    very object the loaded row has under [read_by], so that changing it in
    place changes what the row holds. *)
Record ListRef := {
  list_items : list string;
  held_by_row : bool;
}.

(** [message.read_by or []]: a non-empty list is truthy and [or] gives
    the row's own list; [None] and the empty list are falsy and [or]
    gives a new empty list. *)
Definition read_by_or_empty (message : DirectMessage) : ListRef :=
  match dm_read_by message with
  | Some (u :: l) => {| list_items := u :: l; held_by_row := true |}
  | _ => {| list_items := []; held_by_row := false |}
  end.

(** [read_by_list.append(user)]: the same object, one element longer. *)
Definition list_append (l : ListRef) (user : string) : ListRef :=
  {| list_items := list_items l ++ [user]; held_by_row := held_by_row l |}.

(** What the session remembers as the earlier value of [read_by] when
    [message.read_by = read_by_list] runs: the object the row held.  When
    [read_by_list] is that object it has been changed in place already. *)
Definition remembered_read_by (message : DirectMessage) (read_by_list : ListRef)
  : option (list string) :=
  if held_by_row read_by_list then Some (list_items read_by_list)
  else dm_read_by message.

(** [message.read_by = read_by_list] on a loaded row.  [read_by] is a
    plain [JSON] column ([models.py], line 218: no mutation tracking), so
    the session keeps the remembered value beside the assigned one and
    compares the two at flush. *)
Definition db_set_read_by (message_id : string) (message : DirectMessage)
    (read_by_list : ListRef) : M unit :=
  modify (λ w, set_pending
                 (pending w ++ [SetReadBy message_id
                                  (remembered_read_by message read_by_list)
                                  (list_items read_by_list)]) w).

Definition stamp (now : Z) (m : DirectMessage) : DirectMessage :=
  {| dm_thread_id := dm_thread_id m; dm_sender_id := dm_sender_id m;
     dm_content := dm_content m; dm_attachments := dm_attachments m;
     dm_read_by := dm_read_by m; dm_created_at := now |}.

Definition with_read_by (l : list string) (m : DirectMessage) : DirectMessage :=
  {| dm_thread_id := dm_thread_id m; dm_sender_id := dm_sender_id m;
     dm_content := dm_content m; dm_attachments := dm_attachments m;
     dm_read_by := Some l; dm_created_at := dm_created_at m |}.

(** The statements a flush sends: an inserted message gets its column
    defaults ([uuid4] for [id], the clock for [created_at]); a clash on
    the primary key raises; an assigned [read_by] is written only if it
    differs ([==]) from the remembered one.  Returns the identifiers given
    out. *)
Fixpoint flush (ws : list write) : M (list string) :=
  match ws with
  | [] => ret []
  | Insert m :: rest =>
      n <- gets next_uuid ;;
      modify (set_next_uuid (S n)) ;;;
      now <- gets clock ;;
      s <- gets db ;;
      let id := uuid4 env n in
      match messages s !! id with
      | Some _ => raise IntegrityError
      | None =>
          modify (set_db (set_messages (<[id := stamp now m]> (messages s)) s)) ;;;
          ids <- flush rest ;;
          ret (id :: ids)
      end
  | SetReadBy message_id remembered l :: rest =>
      (if bool_decide (remembered = Some l) then ret tt
       else modify (λ w, set_db (set_messages
                      (alter (with_read_by l) message_id (messages (db w)))
                      (db w)) w)) ;;;
      flush rest
  end.

(** [await db.commit()]: all pending writes or none. *)
Definition db_commit : M (list string) :=
  ws <- gets pending ;;
  before <- gets db ;;
  try_except
    (ids <- flush ws ;;
     modify (set_pending []) ;;;
     modify (emit EvDbCommit) ;;;
     ret ids)
    (λ e, modify (set_db before) ;;; modify (set_pending []) ;;; raise e).

(** [await db.refresh(new_message)]: the row as the store has it. *)
Definition db_refresh (ids : list string) : M (string * DirectMessage) :=
  match ids with
  | [id] =>
      s <- gets db ;;
      match messages s !! id with
      | Some m => ret (id, m)
      | None => raise IntegrityError
      end
  | _ => raise IntegrityError
  end.

(** How the body of a loop ends: [break], or the next iteration (by
    [continue] or by reaching its end). *)
Inductive ctl := Break | Continue.

(** [async for db in get_db(): body]: one iteration per session the
    generator yields, each starting with nothing pending. *)
Fixpoint async_for {S : Type} (sessions : nat) (body : S → M (ctl * S)) (s : S)
  : M S :=
  match sessions with
  | O => ret s
  | Datatypes.S k =>
      modify (set_pending []) ;;;
      r <- body s ;;
      match r with
      | (Break, s') => ret s'
      | (Continue, s') => async_for k body s'
      end
  end.

(** ** [routes/websocket.py]: the session protocol engine *)

(** The local variables of [websocket_endpoint] that outlive one turn of
    its [while True] loop; [None] is an unbound name. *)
Record Locals := {
  new_message : option (string * DirectMessage);
  participant_ids : option (list string);
}.

Definition fresh_locals : Locals :=
  {| new_message := None; participant_ids := None |}.

Definition load_local {A} (name : string) (v : option A) : M A :=
  match v with
  | Some a => ret a
  | None => raise (UnboundLocalError name)
  end.

Definition error_frame (text : string) : json :=
  JDict [("type", JStr "error"); ("message", JStr text)].

Definition new_message_frame (nm : string * DirectMessage)
    (thread_id : json) (user_id : string) (content : json) : json :=
  JDict [("type", JStr "new_message");
         ("message", JDict [("id", JStr nm.1);
                            ("thread_id", thread_id);
                            ("sender_id", JStr user_id);
                            ("content", content);
                            ("attachments", dm_attachments nm.2);
                            ("created_at", JNum (dm_created_at nm.2))])].

Definition typing_frame (thread_id : json) (user_id : string) (is_typing : json) : json :=
  JDict [("type", JStr "typing"); ("thread_id", thread_id);
         ("user_id", JStr user_id); ("is_typing", is_typing)].

Definition receipt_frame (message_id thread_id : json) (user_id : string) : json :=
  JDict [("type", JStr "read_receipt"); ("message_id", message_id);
         ("thread_id", thread_id); ("user_id", JStr user_id)].

Section Session.
Context (user_id : string) (websocket : nat).

(** Lines 79-117: the body of the [async for] of a [message] frame. *)
Definition message_session (message_data thread_id content : json)
    (loc : Locals) : M (ctl * Locals) :=
  member <- gets (λ w, is_participant thread_id user_id (db w)) ;;
  if negb member then
    send_json websocket (error_frame "Not a participant in this thread") ;;;
    ret (Continue, loc)
  else
    attachments <- dict_get message_data "attachments" (JList []) ;;
    db_add {| dm_thread_id := thread_id; dm_sender_id := user_id;
              dm_content := content; dm_attachments := attachments;
              dm_read_by := Some [user_id]; dm_created_at := 0%Z |} ;;;
    ids <- db_commit ;;
    saved <- db_refresh ids ;;
    ps <- gets (λ w, participants_of thread_id (db w)) ;;
    ret (Break, {| new_message := Some saved; participant_ids := Some ps |}).

(** Lines 66-132. *)
Definition on_message (message_data : json) (loc : Locals) : M Locals :=
  thread_id <- dict_get message_data "thread_id" JNull ;;
  content <- dict_get message_data "content" JNull ;;
  if negb (truthy thread_id) || negb (truthy content) then
    send_json websocket (error_frame "Missing thread_id or content") ;;;
    ret loc
  else
    loc' <- async_for (get_db env)
              (message_session message_data thread_id content) loc ;;
    nm <- load_local "new_message" (new_message loc') ;;
    ps <- load_local "participant_ids" (participant_ids loc') ;;
    broadcast_to_thread (new_message_frame nm thread_id user_id content) ps ;;;
    ret loc'.

(** Lines 134-157. *)
Definition on_typing (message_data : json) (loc : Locals) : M Locals :=
  thread_id <- dict_get message_data "thread_id" JNull ;;
  is_typing <- dict_get message_data "is_typing" (JBool false) ;;
  if truthy thread_id then
    loc' <- async_for (get_db env)
              (λ loc,
                 ps <- gets (λ w, participants_of thread_id (db w)) ;;
                 ret (Break,
                      {| new_message := new_message loc;
                         participant_ids :=
                           Some (filter (λ p, p ≠ user_id) ps) |})) loc ;;
    ps <- load_local "participant_ids" (participant_ids loc') ;;
    broadcast_to_thread (typing_frame thread_id user_id is_typing) ps ;;;
    ret loc'
  else ret loc.

(** Lines 165-190: the body of the [async for] of a [read_receipt] frame. *)
Definition receipt_session (message_id thread_id : json) (loc : Locals)
  : M (ctl * Locals) :=
  found <- gets (λ w, find_message message_id thread_id (db w)) ;;
  match found with
  | Some (id, message) =>
      let read_by_list := read_by_or_empty message in
      (if bool_decide (user_id ∈ list_items read_by_list) then ret tt
       else db_set_read_by id message (list_append read_by_list user_id) ;;;
            db_commit ;;; ret tt) ;;;
      ps <- gets (λ w, participants_of thread_id (db w)) ;;
      ret (Break, {| new_message := new_message loc;
                     participant_ids := Some ps |})
  | None => ret (Break, loc)
  end.

(** Lines 159-199. *)
Definition on_read_receipt (message_data : json) (loc : Locals) : M Locals :=
  message_id <- dict_get message_data "message_id" JNull ;;
  thread_id <- dict_get message_data "thread_id" JNull ;;
  if truthy message_id && truthy thread_id then
    loc' <- async_for (get_db env) (receipt_session message_id thread_id) loc ;;
    ps <- load_local "participant_ids" (participant_ids loc') ;;
    broadcast_to_thread (receipt_frame message_id thread_id user_id) ps ;;;
    ret loc'
  else ret loc.

(** Lines 61-203: one turn of the [while True] loop on a received text;
    [None] is a text [json.loads] rejects. *)
Definition loop_body (data : option json) (loc : Locals) : M Locals :=
  match data with
  | None => raise JSONDecodeError
  | Some message_data =>
      message_type <- dict_get message_data "type" JNull ;;
      if str_eqb message_type "message" then on_message message_data loc
      else if str_eqb message_type "typing" then on_typing message_data loc
      else if str_eqb message_type "read_receipt"
           then on_read_receipt message_data loc
      else if str_eqb message_type "ping"
           then send_json websocket (JDict [("type", JStr "pong")]) ;;; ret loc
      else ret loc
  end.

(** The [while True] loop over the texts the client sends; after the
    last one [receive_text] raises [WebSocketDisconnect]. *)
Fixpoint serve (texts : list (option json)) (loc : Locals) : M unit :=
  match texts with
  | [] => raise WebSocketDisconnect
  | data :: rest => loc' <- loop_body data loc ;; serve rest loc'
  end.

Definition connection_frame (now : Z) : json :=
  JDict [("type", JStr "connection"); ("status", JStr "connected");
         ("user_id", JStr user_id); ("timestamp", JNum now)].

(** Lines 46-210, for an authenticated user: both [except] clauses only
    log, [finally] unregisters. *)
Definition session (texts : list (option json)) : M unit :=
  connect websocket user_id ;;;
  try_except
    (now <- gets clock ;;
     send_json websocket (connection_frame now) ;;;
     serve texts fresh_locals)
    (λ _, ret tt) ;;;
  disconnect websocket user_id.

End Session.

(** [get_user_from_token], on what [decode_token] returned. *)
Definition get_user_from_token (payload : option json) (s : Store) : option string :=
  match payload with
  | Some (JDict items) =>
      if negb (truthy (JDict items)) then None
      else if negb (str_eqb (default JNull (assoc "type" items)) "access") then None
      else match assoc "sub" items with
           | Some (JStr sub) =>
               if negb (truthy (JStr sub)) then None
               else match users s !! sub with
                    | Some true => Some sub
                    | _ => None
                    end
           | _ => None
           end
  | _ => None
  end.

(** [websocket_endpoint]. *)
Definition websocket_endpoint (websocket : nat) (payload : option json)
    (texts : list (option json)) : M unit :=
  s <- gets db ;;
  match get_user_from_token payload s with
  | None => modify (emit (EvClose websocket 1008 "Unauthorized"))
  | Some user_id => session user_id websocket texts
  end.

(** The per-connection state machine seen from outside: what one received
    text does to a connection that is being served. *)
Inductive session_state :=
| Serving (loc : Locals)
| Closed.

Definition step (user_id : string) (websocket : nat) (data : option json)
    (loc : Locals) (w : World) : World * session_state :=
  match loop_body user_id websocket data loc w with
  | (w', Ok loc') => (w', Serving loc')
  | (w', Raise _) => ((disconnect websocket user_id w').1, Closed)
  end.

(** ** [server.py]: what [lifespan] does before the first request.
    [init_db] creates tables that exist already; the background tasks an
    instance runs are the ones started here. *)
Inductive task := RedisListener.

Definition lifespan_startup : M (list task) :=
  initialize ;;;
  ret [].

End Gateway.

(** ** [routes/messages.py]: the request/response surface

    A handler maps the store to a response and the committed store, or
    raises and leaves the store as it was.  [current_user] is the user
    [get_current_user] resolved; [new_id] and [now] are what [uuid4] and
    the clock give the row defaults. *)

(** The rows of [thread_participants] of thread [t] whose user is in [ps]. *)
Definition rows_among (ps : gset string) (t : string) (s : Store)
  : gset (string * string) :=
  filter (λ row, row.1 = t ∧ row.2 ∈ ps) (thread_participants s).

(** [select thread_id where user_id in ps group by thread_id
     having count(user_id) == 2]. *)
Definition dedup_subquery (ps : gset string) (s : Store) : gset string :=
  filter (λ t, size (rows_among ps t s) = 2)
         (set_map fst (thread_participants s) : gset string).

(** [select(DirectMessageThread).where(id.in_(subquery))]. *)
Definition dedup_candidates (ps : gset string) (s : Store) : gset string :=
  filter (λ t, t ∈ dedup_subquery ps s) (dom (threads s)).

(** [result.scalar_one_or_none()]. *)
Definition scalar_one_or_none {A} (rows : list A) : result (option A) :=
  match rows with
  | [] => Ok None
  | [row] => Ok (Some row)
  | _ => Raise MultipleResultsFound
  end.

(** Lines 53-69 of [create_thread]. *)
Definition insert_thread (ps : gset string) (new_id : string) (now : Z)
    (s : Store) : result (string * Store) :=
  match threads s !! new_id with
  | Some _ => Raise IntegrityError
  | None =>
      Ok (new_id,
          set_thread_participants
            (thread_participants s ∪ set_map (λ u, (new_id, u)) ps)
            (set_threads
               (<[new_id := {| thread_created_at := now;
                               thread_updated_at := now |}]> (threads s)) s))
  end.

(** [create_thread]; the body schema [MessageThreadCreate] asks for at
    least two [participant_ids].  Returns the identifier of the thread in
    the response. *)
Definition create_thread (participant_ids : list string) (current_user : string)
    (new_id : string) (now : Z) (s : Store) : result (string * Store) :=
  if (length participant_ids <? 2)%nat
  then Raise (HTTPException 422 "participant_ids too short")
  else
    let participant_ids_set : gset string :=
      list_to_set participant_ids ∪ {[current_user]} in
    let found_users : gset string :=
      filter (λ u, u ∈ participant_ids_set) (dom (users s)) in
    if negb (size found_users =? size participant_ids_set)%nat
    then Raise (HTTPException 404 "One or more participants not found")
    else if (size participant_ids_set =? 2)%nat
    then match scalar_one_or_none
                 (elements (dedup_candidates participant_ids_set s)) with
         | Raise e => Raise e
         | Ok (Some existing_thread) => Ok (existing_thread, s)
         | Ok None => insert_thread participant_ids_set new_id now s
         end
    else insert_thread participant_ids_set new_id now s.

(** [send_message]; the body schema [MessageCreate] asks for a non-empty
    [content].  Returns the identifier of the new message. *)
Definition send_message (thread_id : string) (content : string)
    (attachments : option (list string)) (current_user : string)
    (new_id : string) (now : Z) (s : Store) : result (string * Store) :=
  if String.eqb content ""
  then Raise (HTTPException 422 "content too short")
  else if negb (is_participant (JStr thread_id) current_user s)
  then Raise (HTTPException 403 "Not a participant in this thread")
  else
    let new_message :=
      {| dm_thread_id := JStr thread_id; dm_sender_id := current_user;
         dm_content := JStr content;
         dm_attachments := JList (JStr <$> default [] attachments);
         dm_read_by := Some [current_user]; dm_created_at := now |} in
    let touched :=
      match threads s !! thread_id with
      | Some thread =>
          <[thread_id := {| thread_created_at := thread_created_at thread;
                            thread_updated_at := now |}]> (threads s)
      | None => threads s
      end in
    match messages s !! new_id with
    | Some _ => Raise IntegrityError
    | None =>
        Ok (new_id,
            set_messages (<[new_id := new_message]> (messages s))
                         (set_threads touched s))
    end.

(** [mark_message_read].  The assignment [message.read_by = read_by_list]
    and the commit after it write the list only if it differs from the
    value the session remembers, as in [db_set_read_by] and [flush]. *)
Definition mark_message_read (thread_id message_id : string)
    (current_user : string) (s : Store) : result (json * Store) :=
  if negb (is_participant (JStr thread_id) current_user s)
  then Raise (HTTPException 403 "Not a participant in this thread")
  else
    match find_message (JStr message_id) (JStr thread_id) s with
    | None => Raise (HTTPException 404 "Message not found")
    | Some (id, message) =>
        let read_by_list := read_by_or_empty message in
        let response := JDict [("message", JStr "Message marked as read")] in
        if bool_decide (current_user ∈ list_items read_by_list)
        then Ok (response, s)
        else
          let read_by_list := list_append read_by_list current_user in
          if bool_decide (remembered_read_by message read_by_list
                          = Some (list_items read_by_list))
          then Ok (response, s)
          else Ok (response,
                   set_messages
                     (alter (with_read_by (list_items read_by_list)) id
                            (messages s)) s)
    end.

(** * Properties *)

(** ** Reading a trace *)

(** The payloads [send_json] has handed to connection [ws] without
    raising, oldest first. *)
Definition delivered (ws : nat) (tr : list event) : list json :=
  omap (λ e, match e with
             | EvSendJson c p => if decide (c = ws) then Some p else None
             | _ => None
             end) tr.

(** The payloads [send_json] was called with on connection [ws]. *)
Definition attempted (ws : nat) (tr : list event) : list json :=
  omap (λ e, match e with
             | EvSendJson c p | EvSendFailed c p =>
                 if decide (c = ws) then Some p else None
             | _ => None
             end) tr.

(** The connections registered for a user. *)
Definition connections_of (user_id : string) (m : ConnectionManager) : gset nat :=
  default ∅ (active_connections m !! user_id).

Definition emits (es : list event) (w : World) : World :=
  {| db := db w; pending := pending w; manager := manager w; bus := bus w;
     clock := clock w; next_uuid := next_uuid w; trace := trace w ++ es |}.

Lemma emits_nil w : emits [] w = w.
Proof. destruct w; unfold emits; simpl. by rewrite app_nil_r. Qed.

Lemma emits_emit e es w : emits es (emit e w) = emits (e :: es) w.
Proof. unfold emits, emit; simpl. by rewrite <- app_assoc. Qed.

Lemma emits_emits es1 es2 w : emits es2 (emits es1 w) = emits (es1 ++ es2) w.
Proof. unfold emits; simpl. by rewrite <- app_assoc. Qed.

Lemma delivered_app ws tr1 tr2 :
  delivered ws (tr1 ++ tr2) = delivered ws tr1 ++ delivered ws tr2.
Proof. apply omap_app. Qed.

Lemma attempted_app ws tr1 tr2 :
  attempted ws (tr1 ++ tr2) = attempted ws tr1 ++ attempted ws tr2.
Proof. apply omap_app. Qed.

Ltac run := unfold bind, ret, raise, gets, modify, try_except; simpl.

(** ** The connection registry *)

Section Registry.
Context (env : Env).

(** What one pass of [send_personal_message] over [conns] does on the wire. *)
Definition send_events (message : json) (conns : list nat) : list event :=
  (λ c, if decide (c ∈ broken env) then EvSendFailed c message
        else EvSendJson c message) <$> conns.

Lemma send_each_run message conns disconnected w :
  send_each env message conns disconnected w
  = (emits (send_events message conns) w,
     Ok (disconnected ++ filter (λ c, c ∈ broken env) conns)).
Proof.
  revert disconnected w.
  induction conns as [|c rest IH]; intros d w; simpl.
  - run. by rewrite emits_nil, app_nil_r.
  - unfold bind at 1, try_except, send_json. unfold bind at 1.
    rewrite filter_cons. destruct (decide (c ∈ broken env)); simpl.
    + rewrite IH, emits_emit, <- app_assoc. done.
    + rewrite IH, emits_emit. done.
Qed.

Lemma disconnect_each_run conns user_id w :
  disconnect_each conns user_id w
  = (set_manager (foldl (λ m c, registry_discard c user_id m) (manager w) conns) w,
     Ok tt).
Proof.
  revert w. induction conns as [|c rest IH]; intros w; simpl.
  - run. by destruct w.
  - unfold bind, disconnect, modify. rewrite IH. done.
Qed.

Lemma connections_of_discard c user_id m :
  connections_of user_id (registry_discard c user_id m)
  = connections_of user_id m ∖ {[c]}.
Proof.
  unfold connections_of, registry_discard.
  destruct (active_connections m !! user_id) as [conns|] eqn:E; simpl.
  - case_decide as He; simpl.
    + rewrite lookup_delete_eq. simpl. by rewrite He.
    + by rewrite lookup_insert_eq.
  - rewrite E. simpl. set_solver.
Qed.

Lemma connections_of_discard_all cs user_id m :
  connections_of user_id (foldl (λ m c, registry_discard c user_id m) m cs)
  = connections_of user_id m ∖ list_to_set cs.
Proof.
  revert m. induction cs as [|c rest IH]; intros m; simpl.
  - set_solver.
  - rewrite IH, connections_of_discard. set_solver.
Qed.

Lemma delivered_send_events_absent message conns c :
  c ∉ conns → delivered c (send_events message conns) = [].
Proof.
  induction conns as [|c' rest IH]; intros Hc; [done|].
  apply not_elem_of_cons in Hc as [Hne Hc].
  unfold send_events, delivered. simpl.
  destruct (decide (c' ∈ broken env)); simpl.
  - by apply IH.
  - destruct (decide (c' = c)); [congruence|]. by apply IH.
Qed.

Lemma delivered_send_events message conns c :
  NoDup conns → c ∈ conns → c ∉ broken env →
  delivered c (send_events message conns) = [message].
Proof.
  induction 1 as [|c' rest Hc' Hnd IH]; intros Hin Hlive.
  - by apply elem_of_nil in Hin.
  - unfold send_events, delivered. simpl.
    destruct (decide (c' = c)) as [->|Hne].
    + destruct (decide (c ∈ broken env)); [done|]. simpl.
      rewrite decide_True by done. f_equal.
      by apply delivered_send_events_absent.
    + apply elem_of_cons in Hin as [?|Hin]; [congruence|].
      destruct (decide (c' ∈ broken env)); simpl.
      * by apply IH.
      * rewrite decide_False by done. by apply IH.
Qed.

Lemma attempted_send_events_absent message conns c :
  c ∉ conns → attempted c (send_events message conns) = [].
Proof.
  induction conns as [|c' rest IH]; intros Hc; [done|].
  apply not_elem_of_cons in Hc as [Hne Hc].
  unfold send_events, attempted. simpl.
  destruct (decide (c' ∈ broken env)); simpl;
    (destruct (decide (c' = c)); [congruence|]); by apply IH.
Qed.

Lemma attempted_send_events message conns c :
  NoDup conns → c ∈ conns →
  attempted c (send_events message conns) = [message].
Proof.
  induction 1 as [|c' rest Hc' Hnd IH]; intros Hin.
  - by apply elem_of_nil in Hin.
  - unfold send_events, attempted. simpl.
    destruct (decide (c' = c)) as [->|Hne].
    + destruct (decide (c ∈ broken env)); simpl;
        rewrite decide_True by done; f_equal;
        by apply attempted_send_events_absent.
    + apply elem_of_cons in Hin as [?|Hin]; [congruence|].
      destruct (decide (c' ∈ broken env)); simpl;
        rewrite decide_False by done; by apply IH.
Qed.

(** What [send_personal_message] does for a registered user, in closed
    form. *)
Lemma send_personal_message_run message user_id conns w :
  active_connections (manager w) !! user_id = Some conns →
  send_personal_message env message user_id w
  = (set_manager
       (foldl (λ m c, registry_discard c user_id m) (manager w)
              (filter (λ c, c ∈ broken env) (elements conns)))
       (emits (send_events message (elements conns)) w),
     Ok tt).
Proof.
  intros Hreg. unfold send_personal_message.
  unfold bind at 1, gets. rewrite Hreg.
  unfold bind. rewrite send_each_run. simpl.
  by rewrite disconnect_each_run.
Qed.

Lemma send_personal_message_absent message user_id w :
  active_connections (manager w) !! user_id = None →
  send_personal_message env message user_id w = (w, Ok tt).
Proof.
  intros Hreg. unfold send_personal_message.
  unfold bind at 1, gets. by rewrite Hreg.
Qed.

(** C8. When [send_json] raises on some of a user's registered
    connections, [send_personal_message] still returns normally, has
    called [send_json] exactly once on every registered connection, has
    handed the payload exactly once to every connection that works, and
    leaves registered exactly the connections that did not fail. *)
Theorem send_personal_message_survives_failures
    (message : json) (user_id : string) (conns : gset nat) (w : World) :
  active_connections (manager w) !! user_id = Some conns →
  ∃ w', send_personal_message env message user_id w = (w', Ok tt)
      ∧ (∀ c, c ∈ conns →
           attempted c (trace w') = attempted c (trace w) ++ [message])
      ∧ (∀ c, c ∈ conns → c ∉ broken env →
           delivered c (trace w') = delivered c (trace w) ++ [message])
      ∧ connections_of user_id (manager w') = conns ∖ broken env.
Proof.
  intros Hreg. eexists. split; [by apply send_personal_message_run|].
  simpl. split; [|split].
  - intros c Hc. rewrite attempted_app. f_equal.
    apply attempted_send_events; [apply NoDup_elements|].
    by apply elem_of_elements.
  - intros c Hc Hlive. rewrite delivered_app. f_equal.
    apply delivered_send_events; [apply NoDup_elements| |done].
    by apply elem_of_elements.
  - rewrite connections_of_discard_all. unfold connections_of.
    rewrite Hreg. simpl. apply set_eq. intros c.
    rewrite !elem_of_difference, elem_of_list_to_set, list_elem_of_filter,
      elem_of_elements.
    tauto.
Qed.

End Registry.

(** ** What a coroutine leaves alone *)

Section Invariance.
Context {X : Type} (f : World → X).

(** [m] never changes the observation [f] of the world, whether it
    returns or raises. *)
Definition keeps {A} (m : M A) : Prop := ∀ w, f (m w).1 = f w.

Lemma keeps_ret {A} (a : A) : keeps (ret a).
Proof. by intros w. Qed.

Lemma keeps_raise {A} e : keeps (raise e : M A).
Proof. by intros w. Qed.

Lemma keeps_gets {A} (g : World → A) : keeps (gets g).
Proof. by intros w. Qed.

Lemma keeps_modify (g : World → World) :
  (∀ w, f (g w) = f w) → keeps (modify g).
Proof. intros Hg w. apply Hg. Qed.

Lemma keeps_bind {A B} (m : M A) (k : A → M B) :
  keeps m → (∀ a, keeps (k a)) → keeps (bind m k).
Proof.
  intros Hm Hk w. unfold bind. specialize (Hm w).
  destruct (m w) as [w' [a|e]]; simpl in *; [|done].
  by rewrite Hk.
Qed.

Lemma keeps_try_except {A} (m : M A) (h : exn → M A) :
  keeps m → (∀ e, keeps (h e)) → keeps (try_except m h).
Proof.
  intros Hm Hh w. unfold try_except. specialize (Hm w).
  destruct (m w) as [w' [a|e]]; simpl in *; [done|].
  by rewrite Hh.
Qed.

Lemma keeps_load_local {A} name (v : option A) : keeps (load_local name v).
Proof. destruct v; [apply keeps_ret | apply keeps_raise]. Qed.

Lemma keeps_dict_get d key dflt : keeps (dict_get d key dflt).
Proof. destruct d; try apply keeps_raise. apply keeps_ret. Qed.

(** Observations that do not look at the trace, the registry, the
    session's pending writes, the identifier counter or the message
    table. *)
Hypothesis f_emit : ∀ e w, f (emit e w) = f w.
Hypothesis f_manager : ∀ m w, f (set_manager m w) = f w.
Hypothesis f_pending : ∀ p w, f (set_pending p w) = f w.
Hypothesis f_next_uuid : ∀ n w, f (set_next_uuid n w) = f w.
Hypothesis f_messages :
  ∀ ms w, f (set_db (set_messages ms (db w)) w) = f w.
Hypothesis f_rollback : ∀ w w', f w' = f w → f (set_db (db w) w') = f w.

Context (env : Env).

Lemma keeps_send_json ws payload : keeps (send_json env ws payload).
Proof. intros w. unfold send_json. case_decide; simpl; apply f_emit. Qed.

Lemma keeps_disconnect ws user_id : keeps (disconnect ws user_id).
Proof. apply keeps_modify. intros w. apply f_manager. Qed.

Lemma keeps_send_each message conns d : keeps (send_each env message conns d).
Proof.
  revert d. induction conns as [|c rest IH]; intros d; simpl.
  - apply keeps_ret.
  - apply keeps_bind; [|done].
    apply keeps_try_except; [|intros; apply keeps_ret].
    apply keeps_bind; [apply keeps_send_json | intros; apply keeps_ret].
Qed.

Lemma keeps_disconnect_each conns user_id :
  keeps (disconnect_each conns user_id).
Proof.
  induction conns as [|c rest IH]; simpl; [apply keeps_ret|].
  apply keeps_bind; [apply keeps_disconnect | done].
Qed.

Lemma keeps_send_personal_message message user_id :
  keeps (send_personal_message env message user_id).
Proof.
  apply keeps_bind; [apply keeps_gets|]. intros registry.
  destruct (registry !! user_id); [|apply keeps_ret].
  apply keeps_bind; [apply keeps_send_each|].
  intros. apply keeps_disconnect_each.
Qed.

Lemma keeps_broadcast_to_thread message ps :
  keeps (broadcast_to_thread env message ps).
Proof.
  induction ps as [|p rest IH]; simpl; [apply keeps_ret|].
  apply keeps_bind; [apply keeps_send_personal_message | done].
Qed.

Lemma keeps_flush ws : keeps (flush env ws).
Proof.
  induction ws as [|[m|id remembered l] rest IH]; simpl.
  - apply keeps_ret.
  - apply keeps_bind; [apply keeps_gets|]. intros n.
    apply keeps_bind; [apply keeps_modify; intros; apply f_next_uuid|].
    intros _. apply keeps_bind; [apply keeps_gets|]. intros now.
    intros w. unfold bind at 1, gets at 1.
    destruct (messages (db w) !! uuid4 env n); [done|].
    unfold bind at 1, modify at 1.
    rewrite (keeps_bind (flush env rest) _ IH (λ ids, keeps_ret _)).
    apply f_messages.
  - apply keeps_bind; [|done].
    case_bool_decide; [apply keeps_ret|].
    apply keeps_modify. intros w. apply f_messages.
Qed.

Lemma keeps_db_commit : keeps (db_commit env).
Proof.
  intros w. unfold db_commit.
  unfold bind at 1, gets at 1. unfold bind at 1, gets at 1.
  unfold try_except. unfold bind at 1.
  pose proof (keeps_flush (pending w) w) as Hf.
  destruct (flush env (pending w) w) as [w' [ids|e]]; simpl in *.
  - by rewrite f_emit, f_pending.
  - rewrite f_pending. by apply f_rollback.
Qed.

Lemma keeps_db_refresh ids : keeps (db_refresh ids).
Proof.
  destruct ids as [|id [|? ?]]; try apply keeps_raise.
  apply keeps_bind; [apply keeps_gets|]. intros s.
  destruct (messages s !! id); [apply keeps_ret | apply keeps_raise].
Qed.

Lemma keeps_async_for {S} n (body : S → M (ctl * S)) s :
  (∀ s, keeps (body s)) → keeps (async_for n body s).
Proof.
  intros Hb. revert s. induction n as [|k IH]; intros s; simpl.
  - apply keeps_ret.
  - apply keeps_bind; [apply keeps_modify; intros; apply f_pending|].
    intros _. apply keeps_bind; [done|].
    intros [[] s']; [apply keeps_ret | apply IH].
Qed.

Ltac keeps_step :=
  first
    [ apply keeps_ret | apply keeps_raise | apply keeps_gets
    | apply keeps_send_json | apply keeps_broadcast_to_thread
    | apply keeps_db_commit | apply keeps_db_refresh
    | apply keeps_load_local | apply keeps_dict_get
    | apply keeps_modify; intros; apply f_pending
    | apply keeps_bind; [|intros] ].

Lemma keeps_message_session user_id ws message_data thread_id content loc :
  keeps (message_session env user_id ws message_data thread_id content loc).
Proof.
  unfold message_session, db_add. keeps_step; [keeps_step|].
  destruct (negb _); repeat keeps_step.
Qed.

Lemma keeps_receipt_session user_id message_id thread_id loc :
  keeps (receipt_session env user_id message_id thread_id loc).
Proof.
  unfold receipt_session, db_set_read_by. keeps_step; [keeps_step|].
  destruct a as [[id message]|]; [|keeps_step].
  keeps_step; [|repeat keeps_step].
  case_bool_decide; repeat keeps_step.
Qed.

(** Nothing [loop_body] does on any received text changes [f]. *)
Lemma keeps_loop_body user_id ws data loc :
  keeps (loop_body env user_id ws data loc).
Proof.
  destruct data as [message_data|]; simpl; [|apply keeps_raise].
  unfold on_message, on_typing, on_read_receipt.
  repeat first
    [ keeps_step
    | apply keeps_message_session
    | apply keeps_receipt_session
    | apply keeps_async_for; intros
    | case_match ].
Qed.

End Invariance.

(** ** The session protocol engine *)

Section Engine.
Context (env : Env) (user_id : string) (websocket : nat).

(** An attempt to send [message], whatever the connection and outcome. *)
Definition is_send (message : json) (e : event) : Prop :=
  ∃ c, e = EvSendJson c message ∨ e = EvSendFailed c message.

Lemma send_events_are_sends message conns :
  Forall (is_send message) (send_events env message conns).
Proof.
  apply Forall_fmap, Forall_forall. intros c _. exists c. simpl.
  case_decide; auto.
Qed.

Lemma send_personal_message_shape message uid w :
  ∃ evs m', send_personal_message env message uid w
            = (set_manager m' (emits evs w), Ok tt)
          ∧ Forall (is_send message) evs.
Proof.
  destruct (active_connections (manager w) !! uid) as [conns|] eqn:E.
  - eexists _, _. split; [by apply send_personal_message_run|].
    apply send_events_are_sends.
  - exists [], (manager w). split; [|constructor].
    rewrite send_personal_message_absent by done.
    rewrite emits_nil. by destruct w.
Qed.

(** [broadcast_to_thread] returns normally and only sends [message] and
    updates the registry. *)
Lemma broadcast_to_thread_shape message ps w :
  ∃ evs m', broadcast_to_thread env message ps w
            = (set_manager m' (emits evs w), Ok tt)
          ∧ Forall (is_send message) evs.
Proof.
  revert w. induction ps as [|p rest IH]; intros w; simpl.
  - exists [], (manager w). split; [|constructor].
    unfold ret. rewrite emits_nil. by destruct w.
  - destruct (send_personal_message_shape message p w)
      as (evs1 & m1 & E1 & Hs1).
    destruct (IH (set_manager m1 (emits evs1 w))) as (evs2 & m2 & E2 & Hs2).
    exists (evs1 ++ evs2), m2. split; [|by apply Forall_app].
    unfold bind. rewrite E1, E2. f_equal.
    unfold set_manager, emits. simpl. by rewrite <- app_assoc.
Qed.

(** The row a [message] frame asks to insert. *)
Definition message_row (items : list (string * json)) (thread_id content : json)
  : DirectMessage :=
  {| dm_thread_id := thread_id; dm_sender_id := user_id;
     dm_content := content;
     dm_attachments := default (JList []) (assoc "attachments" items);
     dm_read_by := Some [user_id]; dm_created_at := 0%Z |}.

(** The world right after the commit of one inserted message. *)
Definition after_commit (m : DirectMessage) (w : World) : World :=
  {| db := set_messages
             (<[uuid4 env (next_uuid w) := stamp (clock w) m]> (messages (db w)))
             (db w);
     pending := []; manager := manager w; bus := bus w; clock := clock w;
     next_uuid := S (next_uuid w); trace := trace w ++ [EvDbCommit] |}.

(** The world after a commit that hit a taken identifier. *)
Definition after_rollback (w : World) : World :=
  {| db := db w; pending := []; manager := manager w; bus := bus w;
     clock := clock w; next_uuid := S (next_uuid w); trace := trace w |}.

Lemma message_session_accepted items thread_id content loc w :
  is_participant thread_id user_id (db w) = true →
  messages (db w) !! uuid4 env (next_uuid w) = None →
  message_session env user_id websocket (JDict items) thread_id content loc
    (set_pending [] w)
  = (after_commit (message_row items thread_id content) w,
     Ok (Break,
         {| new_message :=
              Some (uuid4 env (next_uuid w),
                    stamp (clock w) (message_row items thread_id content));
            participant_ids := Some (participants_of thread_id (db w)) |})).
Proof.
  intros Hp Hfresh.
  unfold message_session, db_commit, db_add, db_refresh, dict_get.
  run. rewrite Hp. simpl. run. rewrite Hfresh. simpl.
  by rewrite lookup_insert_eq.
Qed.

Lemma message_session_clash items thread_id content loc w :
  is_participant thread_id user_id (db w) = true →
  messages (db w) !! uuid4 env (next_uuid w) ≠ None →
  message_session env user_id websocket (JDict items) thread_id content loc
    (set_pending [] w)
  = (after_rollback w, Raise IntegrityError).
Proof.
  intros Hp Hclash.
  unfold message_session, db_commit, db_add, db_refresh, dict_get.
  run. rewrite Hp. simpl. run.
  destruct (messages (db w) !! uuid4 env (next_uuid w)); [|done].
  simpl. unfold after_rollback. by destruct w as [[]].
Qed.

End Engine.

Section MessageFrames.
Context (env : Env) (user_id : string) (websocket : nat).

(** A decoded [message] frame carrying [thread_id] and [content]. *)
Definition message_frame (items : list (string * json))
    (thread_id content : json) : Prop :=
  assoc "type" items = Some (JStr "message")
  ∧ assoc "thread_id" items = Some thread_id
  ∧ assoc "content" items = Some content
  ∧ truthy thread_id = true ∧ truthy content = true.

(** The frame passes the participant check of line 89: a session is at
    hand and the sender is in the thread. *)
Definition accepted (items : list (string * json)) (thread_id content : json)
    (w : World) : Prop :=
  message_frame items thread_id content
  ∧ get_db env ≠ O
  ∧ is_participant thread_id user_id (db w) = true.

Lemma on_message_dispatch items thread_id content loc w :
  message_frame items thread_id content →
  loop_body env user_id websocket (Some (JDict items)) loc w
  = bind (async_for (get_db env)
            (message_session env user_id websocket (JDict items)
               thread_id content) loc)
      (λ loc',
         nm <- load_local "new_message" (new_message loc') ;;
         ps <- load_local "participant_ids" (participant_ids loc') ;;
         broadcast_to_thread env
           (new_message_frame nm thread_id user_id content) ps ;;;
         ret loc') w.
Proof.
  intros (Hty & Hth & Hco & Tth & Tco).
  unfold loop_body, on_message, dict_get. rewrite Hty, Hth, Hco.
  unfold bind at 1, ret at 1. simpl str_eqb. cbv iota.
  unfold bind at 1, ret at 1. unfold bind at 1, ret at 1.
  by rewrite Tth, Tco.
Qed.

Lemma loop_body_accepted items thread_id content loc w :
  accepted items thread_id content w →
  messages (db w) !! uuid4 env (next_uuid w) = None →
  let id := uuid4 env (next_uuid w) in
  let m := stamp (clock w) (message_row user_id items thread_id content) in
  let ps := participants_of thread_id (db w) in
  ∃ w', broadcast_to_thread env
          (new_message_frame (id, m) thread_id user_id content) ps
          (after_commit env (message_row user_id items thread_id content) w)
        = (w', Ok tt)
      ∧ loop_body env user_id websocket (Some (JDict items)) loc w
        = (w', Ok {| new_message := Some (id, m);
                     participant_ids := Some ps |}).
Proof.
  intros (Hframe & Hs & Hp) Hfresh id m ps.
  destruct (broadcast_to_thread_shape env
              (new_message_frame (id, m) thread_id user_id content) ps
              (after_commit env (message_row user_id items thread_id content) w))
    as (evs & m' & Hb & _).
  eexists. split; [exact Hb|].
  rewrite (on_message_dispatch items thread_id content) by done.
  destruct (get_db env) as [|k]; [done|].
  unfold bind at 1. cbn [async_for].
  unfold bind at 1, modify at 1. unfold bind at 1.
  rewrite message_session_accepted by done.
  unfold ret at 1. unfold bind at 1, load_local at 1, ret at 1.
  cbn [new_message]. unfold bind at 1, load_local at 1, ret at 1.
  cbn [participant_ids]. unfold bind at 1.
  fold id m ps. rewrite Hb. done.
Qed.

Lemma loop_body_clash items thread_id content loc w :
  accepted items thread_id content w →
  messages (db w) !! uuid4 env (next_uuid w) ≠ None →
  loop_body env user_id websocket (Some (JDict items)) loc w
  = (after_rollback w, Raise IntegrityError).
Proof.
  intros (Hframe & Hs & Hp) Hclash.
  rewrite (on_message_dispatch items thread_id content) by done.
  destruct (get_db env) as [|k]; [done|].
  unfold bind at 1. cbn [async_for].
  unfold bind at 1, modify at 1. unfold bind at 1.
  by rewrite message_session_clash.
Qed.

(** C4. For an accepted [message] frame, either the insert fails and
    nothing is sent, or the handler's effects are, in this order: one
    commit, after which the new message is in the store, then the
    broadcast of its [new_message] frame, which consists of sends only
    and leaves the store as the commit made it. *)
Theorem persist_before_broadcast
    (items : list (string * json)) (thread_id content : json)
    (loc : Locals) (w : World) :
  accepted items thread_id content w →
  ∃ w' r,
    loop_body env user_id websocket (Some (JDict items)) loc w = (w', r)
    ∧ ((r = Raise IntegrityError ∧ trace w' = trace w ∧ db w' = db w)
       ∨ ∃ id m w_commit ps sends loc',
           r = Ok loc'
           ∧ messages (db w) !! id = None
           ∧ trace w_commit = trace w ++ [EvDbCommit]
           ∧ messages (db w_commit) !! id = Some m
           ∧ dm_thread_id m = thread_id ∧ dm_sender_id m = user_id
           ∧ dm_content m = content ∧ dm_read_by m = Some [user_id]
           ∧ broadcast_to_thread env
               (new_message_frame (id, m) thread_id user_id content) ps
               w_commit = (w', Ok tt)
           ∧ trace w' = trace w ++ EvDbCommit :: sends
           ∧ Forall (is_send
                       (new_message_frame (id, m) thread_id user_id content))
                    sends
           ∧ db w' = db w_commit).
Proof.
  intros Hacc.
  destruct (messages (db w) !! uuid4 env (next_uuid w)) as [old|] eqn:Hid.
  - eexists _, _. split.
    + apply (loop_body_clash items thread_id content); [done|]. by rewrite Hid.
    + left. done.
  - destruct (loop_body_accepted items thread_id content loc w Hacc Hid)
      as (w' & Hb & Hrun).
    eexists _, _. split; [exact Hrun|]. right.
    destruct (broadcast_to_thread_shape env
                (new_message_frame
                   (uuid4 env (next_uuid w),
                    stamp (clock w)
                      (message_row user_id items thread_id content))
                   thread_id user_id content)
                (participants_of thread_id (db w))
                (after_commit env
                   (message_row user_id items thread_id content) w))
      as (sends & m' & Hb' & Hs).
    rewrite Hb' in Hb. injection Hb as <-.
    exists (uuid4 env (next_uuid w)),
      (stamp (clock w) (message_row user_id items thread_id content)),
      (after_commit env (message_row user_id items thread_id content) w),
      (participants_of thread_id (db w)), sends.
    eexists. split; [done|]. split; [exact Hid|].
    split; [done|]. split; [apply lookup_insert_eq|].
    do 4 (split; [done|]).
    split; [exact Hb'|]. split; [|done].
    simpl. by rewrite <- app_assoc.
Qed.

(** A frame for a thread the sender is not in: one error frame, then
    [continue]. *)
Lemma message_session_rejected items thread_id content loc w :
  is_participant thread_id user_id (db w) = false →
  message_session env user_id websocket (JDict items) thread_id content loc w
  = if decide (websocket ∈ broken env)
    then (emit (EvSendFailed websocket
                  (error_frame "Not a participant in this thread")) w,
          Raise SendError)
    else (emit (EvSendJson websocket
                  (error_frame "Not a participant in this thread")) w,
          Ok (Continue, loc)).
Proof.
  intros Hp. unfold message_session. unfold bind at 1, gets at 1.
  rewrite Hp. cbn [negb]. unfold bind, send_json. by case_decide.
Qed.

(** The [continue] goes to the next session of the [async for], which
    then runs out. *)
Lemma async_for_rejected n items thread_id content loc w :
  is_participant thread_id user_id (db w) = false →
  ∃ w' r, async_for n
            (message_session env user_id websocket (JDict items)
               thread_id content) loc w = (w', r)
        ∧ (r = Ok loc ∨ r = Raise SendError)
        ∧ db w' = db w ∧ bus w' = bus w.
Proof.
  intros Hp. revert w Hp. induction n as [|k IH]; intros w Hp.
  - eexists _, _. split; [done|]. auto.
  - cbn [async_for]. unfold bind at 1, modify at 1. unfold bind at 1.
    rewrite message_session_rejected by done. case_decide.
    + eexists _, _. split; [done|]. auto.
    + destruct (IH (emit (EvSendJson websocket
                  (error_frame "Not a participant in this thread"))
                  (set_pending [] w))) as (w' & r & Hrun & Hr & Hdb & Hbus);
        [done|].
      rewrite Hrun. eexists _, _. split; [done|]. auto.
Qed.

(** On a connection that has not yet had a message accepted, a frame for
    a thread the sender is not in ends the [while True] loop with an
    exception; no message is created. *)
Lemma rejected_on_fresh_connection items thread_id content loc w :
  message_frame items thread_id content →
  is_participant thread_id user_id (db w) = false →
  new_message loc = None →
  ∃ w' e, loop_body env user_id websocket (Some (JDict items)) loc w
          = (w', Raise e)
        ∧ (e = UnboundLocalError "new_message" ∨ e = SendError)
        ∧ db w' = db w.
Proof.
  intros Hframe Hp Hloc.
  rewrite (on_message_dispatch items thread_id content) by done.
  destruct (async_for_rejected (get_db env) items thread_id content loc w Hp)
    as (w' & r & Hrun & [-> | ->] & Hdb & _);
    unfold bind at 1; rewrite Hrun.
  - unfold bind at 1. rewrite Hloc. simpl.
    eexists _, _. split; [done|]. auto.
  - eexists _, _. split; [done|]. auto.
Qed.

End MessageFrames.

(** ** A deployment to run the handlers on *)

Module Scenario.

Fixpoint tally (n : nat) : string :=
  match n with
  | O => ""
  | S k => "i" +:+ tally k
  end.

(** One session per [get_db()], sound sockets, Redis up, and [uuid4]
    handing out [m], [mi], [mii], ... *)
Definition env1 : Env :=
  {| get_db := 1; uuid4 := λ n, "m" +:+ tally n;
     broken := ∅; redis_up := true |}.

(** As [env1], with socket 2 half-closed. *)
Definition env_broken : Env :=
  {| get_db := 1; uuid4 := λ n, "m" +:+ tally n;
     broken := {[2%nat]}; redis_up := true |}.

(** Three users; thread [T1] of [U1] and [U2], thread [T2] of [U2] and
    [U3], both last touched before the clock's reading of 10. *)
Definition store1 : Store :=
  {| users := {[ "U1" := true; "U2" := true; "U3" := true ]};
     threads := {[ "T1" := {| thread_created_at := 5; thread_updated_at := 5 |};
                   "T2" := {| thread_created_at := 6; thread_updated_at := 6 |} ]};
     thread_participants :=
       {[ ("T1", "U1"); ("T1", "U2"); ("T2", "U2"); ("T2", "U3") ]};
     messages := ∅ |}.

Definition world_with (registry : gmap string (gset nat)) : World :=
  {| db := store1; pending := [];
     manager := {| active_connections := registry;
                   redis := true; pubsub := true |};
     bus := []; clock := 10; next_uuid := 0; trace := [] |}.

(** One instance serving everybody: socket [n] belongs to user [Un]. *)
Definition w1 : World :=
  world_with {[ "U1" := {[1%nat]}; "U2" := {[2%nat]}; "U3" := {[3%nat]} ]}.

(** Two instances on the same store: [U1] is connected to A only, [U2] to
    B only. *)
Definition instance_a : World := world_with {[ "U1" := {[1%nat]} ]}.
Definition instance_b : World := world_with {[ "U2" := {[2%nat]} ]}.

Definition message_to (thread_id content : string) : option json :=
  Some (JDict [("type", JStr "message"); ("thread_id", JStr thread_id);
               ("content", JStr content)]).

Definition not_a_participant : json :=
  error_frame "Not a participant in this thread".

Definition ping : option json := Some (JDict [("type", JStr "ping")]).
Definition pong : json := JDict [("type", JStr "pong")].

(** What [decode_token] returns for a valid access token of [user_id]. *)
Definition access_token (user_id : string) : option json :=
  Some (JDict [("type", JStr "access"); ("sub", JStr user_id)]).

(** An instance nobody is connected to yet. *)
Definition idle : World := world_with ∅.

End Scenario.

(** What an instance does in the background: it runs the tasks its
    startup created. *)
Fixpoint run_tasks (env : Env) (tasks : list task) : M unit :=
  match tasks with
  | [] => ret tt
  | RedisListener :: rest => handle_redis_messages env ;;; run_tasks env rest
  end.

(** Instance [b] sees the store and the channel as instance [a] left
    them. *)
Definition shared_with (a b : World) : World := set_bus (bus a) (set_db (db a) b).

(** A participant connected to another instance: both instances start,
    [a] handles the text [data] of [user_id], [b] runs its background
    tasks on what the channel carries.  Returns [b] at the end. *)
Definition cross_instance (env : Env) (user_id : string) (websocket : nat)
    (data : option json) (a b : World) : World :=
  let a1 := lifespan_startup env a in
  let b1 := lifespan_startup env b in
  let a2 := loop_body env user_id websocket data fresh_locals a1.1 in
  let tasks := match b1.2 with Ok ts => ts | Raise _ => [] end in
  (run_tasks env tasks (shared_with a2.1 b1.1)).1.

(** How [loop_body] treats a received text. *)
Inductive frame_class := Malformed | Unrecognized | Recognized.

Definition recognized (message_type : json) : bool :=
  str_eqb message_type "message" || str_eqb message_type "typing"
  || str_eqb message_type "read_receipt" || str_eqb message_type "ping".

Definition classify (data : option json) : frame_class :=
  match data with
  | None => Malformed
  | Some (JDict items) =>
      if recognized (default JNull (assoc "type" items))
      then Recognized else Unrecognized
  | Some _ => Malformed
  end.

(** The reaction the design document asks for on a text that is not
    understood: an [error] frame to the sender, who stays served. *)
Definition answers_error_and_stays (env : Env) (user_id : string)
    (websocket : nat) (data : option json) (loc : Locals) (w : World) : Prop :=
  ∃ text loc',
    (step env user_id websocket data loc w).2 = Serving loc'
    ∧ delivered websocket (trace (step env user_id websocket data loc w).1)
      = delivered websocket (trace w) ++ [error_frame text].

(** ** Frames that are rejected or not understood *)

Import Scenario.

(** C1 (the code departs from it). [U3], not a participant of [T1], sends
    a [message] frame for [T1] on a fresh connection: the error frame is
    sent and no message is created, but the [continue] of line 94
    continues the [async for], the handler falls through to line 120,
    [new_message] is unbound, and the connection is closed and
    unregistered instead of staying in [Serving].  Seen from the
    endpoint: a [ping] sent after that frame gets no [pong], while the
    same connection answers every [ping] when the frame is left out. *)
Theorem nonparticipant_message_ends_session :
  let r := step env1 "U3" 3 (message_to "T1" "hello") fresh_locals w1 in
  let closed := websocket_endpoint env1 3 (access_token "U3")
                  [message_to "T1" "hello"; ping] idle in
  let served := websocket_endpoint env1 3 (access_token "U3") [ping] idle in
  is_participant (JStr "T1") "U3" (db w1) = false
  ∧ loop_body env1 "U3" 3 (message_to "T1" "hello") fresh_locals w1
    = (emit (EvSendJson 3 not_a_participant) w1,
       Raise (UnboundLocalError "new_message"))
  ∧ r.2 = Closed
  ∧ trace r.1 = [EvSendJson 3 not_a_participant]
  ∧ messages (db r.1) = ∅
  ∧ connections_of "U3" (manager r.1) = ∅
  ∧ delivered 3 (trace closed.1)
    = [connection_frame "U3" 10; not_a_participant]
  ∧ delivered 3 (trace served.1) = [connection_frame "U3" 10; pong].
Proof. vm_compute. repeat split; reflexivity. Qed.

(** The same slip on a connection that already had a message accepted:
    [U1] writes to [T1], then to [T2], of which it is no participant.
    The second frame is answered with the error frame and stores
    nothing, yet its content goes out as a [new_message] frame, under the
    identifier of the first message, to the participants of [T1]. *)
Lemma rejected_content_is_broadcast :
  let first := loop_body env1 "U1" 1 (message_to "T1" "hi") fresh_locals w1 in
  ∃ loc1 saved,
    first.2 = Ok loc1
    ∧ is_participant (JStr "T2") "U1" (db first.1) = false
    ∧ let r := step env1 "U1" 1 (message_to "T2" "peek") loc1 first.1 in
      r.2 = Serving loc1
      ∧ messages (db r.1) = {[ "m" := saved ]}
      ∧ delivered 2 (trace r.1)
        = [ new_message_frame ("m", saved) (JStr "T1") "U1" (JStr "hi");
            new_message_frame ("m", saved) (JStr "T2") "U1" (JStr "peek") ].
Proof. eexists _, _. vm_compute. repeat split; reflexivity. Qed.

(** C3, as the design document states it, fails on a frame of unknown
    kind (nothing is sent) and on a text that is not JSON (the
    connection is closed: the [ping] after it gets no [pong]). *)
Lemma unhandled_text_counterexample :
  ¬ answers_error_and_stays env1 "U1" 1
      (Some (JDict [("type", JStr "dance")])) fresh_locals w1
  ∧ ¬ answers_error_and_stays env1 "U1" 1 None fresh_locals w1
  ∧ delivered 1 (trace (websocket_endpoint env1 1 (access_token "U1")
                          [None; ping] idle).1)
    = [connection_frame "U1" 10].
Proof.
  split; [|split].
  - intros (text & loc' & Hstate & Hsent).
    vm_compute in Hsent. discriminate.
  - intros (text & loc' & Hstate & Hsent).
    vm_compute in Hstate. discriminate.
  - vm_compute. reflexivity.
Qed.

Section Unhandled.
Context (env : Env) (user_id : string) (websocket : nat).

Lemma unrecognized_is_skipped items loc w :
  recognized (default JNull (assoc "type" items)) = false →
  loop_body env user_id websocket (Some (JDict items)) loc w = (w, Ok loc).
Proof.
  unfold recognized, loop_body, dict_get. intros Hkind.
  apply orb_false_iff in Hkind as [Hkind Hping].
  apply orb_false_iff in Hkind as [Hkind Hreceipt].
  apply orb_false_iff in Hkind as [Hmessage Htyping].
  unfold bind, ret.
  destruct (assoc "type" items) as [kind|]; cbn [from_option id] in *.
  - by rewrite Hmessage, Htyping, Hreceipt, Hping.
  - done.
Qed.

Lemma malformed_raises data loc w :
  classify data = Malformed →
  ∃ e, loop_body env user_id websocket data loc w = (w, Raise e).
Proof.
  destruct data as [[| | | | |items]|]; simpl; try by eauto.
  by case_match.
Qed.

(** C3, amended. A text that [loop_body] does not understand is never
    answered: nothing is sent and the store is untouched.  A frame of
    unknown kind is skipped and the connection stays in [Serving] with
    the world unchanged; a text that is not a JSON object raises, which
    closes the connection, unregisters it, and leaves the texts after it
    unread. *)
Theorem unhandled_text_is_not_answered
    (data : option json) (loc : Locals) (w : World) :
  classify data ≠ Recognized →
  trace (step env user_id websocket data loc w).1 = trace w
  ∧ db (step env user_id websocket data loc w).1 = db w
  ∧ match classify data with
    | Unrecognized =>
        step env user_id websocket data loc w = (w, Serving loc)
    | _ =>
        (step env user_id websocket data loc w).2 = Closed
        ∧ connections_of user_id
            (manager (step env user_id websocket data loc w).1)
          = connections_of user_id (manager w) ∖ {[websocket]}
        ∧ ∀ rest, ∃ e,
            serve env user_id websocket (data :: rest) loc w = (w, Raise e)
    end.
Proof.
  intros Hclass.
  destruct (classify data) eqn:Hc; [| |done].
  - destruct (malformed_raises data loc w Hc) as (e & He).
    unfold step. rewrite He. simpl.
    split; [done|]. split; [done|]. split; [done|].
    split; [apply connections_of_discard|].
    intros rest. exists e. unfold bind. by rewrite He.
  - destruct data as [[| | | | |items]|]; simpl in Hc; try done.
    case_match eqn:Hkind; [done|].
    unfold step. by rewrite unrecognized_is_skipped.
Qed.

End Unhandled.

Lemma unhandled_text_is_not_answered_witness :
  classify (Some (JDict [("type", JStr "dance")])) ≠ Recognized
  ∧ step env1 "U1" 1 (Some (JDict [("type", JStr "dance")])) fresh_locals w1
    = (w1, Serving fresh_locals).
Proof.
  split; [vm_compute; discriminate|].
  apply (unhandled_text_is_not_answered env1 "U1" 1
           (Some (JDict [("type", JStr "dance")])) fresh_locals w1).
  vm_compute. discriminate.
Defined.

(** ** What an accepted message reaches *)

(** Nothing the WebSocket handler does on any text changes the table of
    threads. *)
Lemma loop_body_keeps_threads env user_id websocket data loc :
  keeps (λ w, threads (db w)) (loop_body env user_id websocket data loc).
Proof. by apply keeps_loop_body. Qed.

(** Nothing the WebSocket handler does on any text publishes on the
    channel. *)
Lemma loop_body_keeps_bus env user_id websocket data loc :
  keeps bus (loop_body env user_id websocket data loc).
Proof. by apply keeps_loop_body. Qed.

(** C5 (the code departs from it). No frame handled over the WebSocket
    changes any thread's [updated_at]: [U1]'s accepted message for [T1],
    handled when the clock reads 10, is stored while [T1] keeps its
    [updated_at] of 5.  The same message through the REST handler
    [send_message] moves it to 10. *)
Theorem websocket_message_leaves_updated_at :
  (∀ env user_id websocket data loc w,
     threads (db (loop_body env user_id websocket data loc w).1)
     = threads (db w))
  ∧ (let r := loop_body env1 "U1" 1 (message_to "T1" "hi") fresh_locals w1 in
     (∃ loc, r.2 = Ok loc)
     ∧ is_Some (messages (db r.1) !! "m")
     ∧ clock w1 = 10%Z
     ∧ thread_updated_at <$> threads (db r.1) !! "T1" = Some 5%Z)
  ∧ (∃ s', send_message "T1" "hi" None "U1" "m" 10 store1 = Ok ("m", s')
         ∧ thread_updated_at <$> threads s' !! "T1" = Some 10%Z).
Proof.
  split; [intros; apply loop_body_keeps_threads|].
  split.
  - vm_compute. repeat split; eauto.
  - eexists. vm_compute. split; reflexivity.
Qed.

(** C2 (the code departs from it). No frame handled over the WebSocket
    publishes anything, and startup creates no task that listens to the
    channel.  So when [U1], connected to instance A, has a message for
    [T1] accepted, [U2], participant of [T1] with its only connection on
    instance B, is sent nothing, although the message is stored. *)
Theorem message_frames_never_reach_the_bus :
  (∀ env user_id websocket data loc w,
     bus (loop_body env user_id websocket data loc w).1 = bus w)
  ∧ (∀ env w, (lifespan_startup env w).2 = Ok [])
  ∧ (let b := cross_instance env1 "U1" 1 (message_to "T1" "hi")
                instance_a instance_b in
     is_participant (JStr "T1") "U2" (db b) = true
     ∧ is_Some (messages (db b) !! "m")
     ∧ connections_of "U2" (manager b) = {[2%nat]}
     ∧ bus b = []
     ∧ attempted 2 (trace b) = []).
Proof.
  split; [intros; apply loop_body_keeps_bus|].
  split; [done|].
  vm_compute. repeat split; eauto.
Qed.

(** Had the handler published its frame and had instance B listened, B
    would still send nothing: the frame carries no ["user_ids"], the key
    [handle_redis_messages] reads its recipients from. *)
Lemma published_frame_names_no_recipient :
  let saved := stamp 10 (message_row "U1" [] (JStr "T1") (JStr "hi")) in
  let frame := new_message_frame ("m", saved) (JStr "T1") "U1" (JStr "hi") in
  let a := (publish_message env1 frame instance_a).1 in
  let b := (handle_redis_messages env1 (shared_with a instance_b)).1 in
  bus b = [frame] ∧ attempted 2 (trace b) = [].
Proof. vm_compute. split; reflexivity. Qed.

Lemma persist_before_broadcast_witness :
  accepted env1 "U1"
    [("type", JStr "message"); ("thread_id", JStr "T1"); ("content", JStr "hi")]
    (JStr "T1") (JStr "hi") w1
  ∧ ∃ w' r, loop_body env1 "U1" 1 (message_to "T1" "hi") fresh_locals w1
            = (w', r).
Proof.
  assert (accepted env1 "U1"
            [("type", JStr "message"); ("thread_id", JStr "T1");
             ("content", JStr "hi")] (JStr "T1") (JStr "hi") w1) as Hacc.
  { repeat split; try reflexivity. vm_compute. discriminate. }
  split; [exact Hacc|].
  destruct (persist_before_broadcast env1 "U1" 1 _ _ _ fresh_locals w1 Hacc)
    as (w' & r & Hrun & _).
  by exists w', r.
Defined.

(** [U1] holds sockets 1 and 2; socket 2 is half-closed. *)
Lemma send_personal_message_survives_failures_witness :
  active_connections
    (manager (world_with {[ "U1" := {[1%nat; 2%nat]} ]})) !! "U1"
  = Some {[1%nat; 2%nat]}
  ∧ ∃ w', send_personal_message env_broken (JDict [("type", JStr "pong")])
            "U1" (world_with {[ "U1" := {[1%nat; 2%nat]} ]}) = (w', Ok tt)
        ∧ connections_of "U1" (manager w') = {[1%nat; 2%nat]} ∖ broken env_broken.
Proof.
  assert (active_connections
            (manager (world_with {[ "U1" := {[1%nat; 2%nat]} ]})) !! "U1"
          = Some {[1%nat; 2%nat]}) as Hreg0 by reflexivity.
  split; [exact Hreg0|].
  destruct (send_personal_message_survives_failures env_broken
              (JDict [("type", JStr "pong")]) "U1" {[1%nat; 2%nat]}
              (world_with {[ "U1" := {[1%nat; 2%nat]} ]}) Hreg0)
    as (w' & Hrun & _ & _ & Hreg).
  by exists w'.
Defined.

(** ** Threads and their participants *)

Section Threads.

(** A two-element set asked for among the rows of one thread: two rows
    are found only if both elements have a row. *)
Lemma rows_among_both (ps : gset string) (t : string) (s : Store) :
  size ps = 2 → size (rows_among ps t s) = 2 →
  ∀ u, u ∈ ps → (t, u) ∈ thread_participants s.
Proof.
  intros Hps Hrows u Hu.
  destruct (decide ((t, u) ∈ thread_participants s)) as [|Hout]; [done|].
  exfalso.
  assert (size (ps ∖ {[u]}) = 1) as Hrest.
  { rewrite size_difference by set_solver. rewrite size_singleton. lia. }
  apply size_1_elem_of in Hrest as [u' Hu'].
  assert (rows_among ps t s ⊆ {[ (t, u') ]}) as Hsub.
  { intros [t0 u0] Hrow. unfold rows_among in Hrow.
    apply elem_of_filter in Hrow as [[Ht Hin] Hrow]. simpl in *. subst t0.
    assert (u0 ≠ u) by (intros ->; done).
    assert (u0 ∈ ps ∖ {[u]}) as Hu0 by set_solver.
    rewrite Hu' in Hu0. set_solver. }
  apply subseteq_size in Hsub. rewrite size_singleton in Hsub. lia.
Qed.

Lemma rows_among_pair (a b t : string) (s : Store) :
  a ≠ b →
  (t, a) ∈ thread_participants s → (t, b) ∈ thread_participants s →
  size (rows_among {[a; b]} t s) = 2.
Proof.
  intros Hab Ha Hb.
  assert (rows_among {[a; b]} t s = {[ (t, a) ]} ∪ {[ (t, b) ]}) as ->.
  { apply set_eq. intros [t0 u0]. unfold rows_among.
    rewrite elem_of_filter. simpl. set_solver. }
  rewrite size_union by set_solver. by rewrite !size_singleton.
Qed.

(** C10. Every thread [create_thread] answers with, new or found, has
    the caller among its participants in the store it leaves: the caller
    is put into the participant set before anything is looked up. *)
Theorem create_thread_includes_caller
    (participant_ids : list string) (current_user new_id : string) (now : Z)
    (s s' : Store) (t : string) :
  create_thread participant_ids current_user new_id now s = Ok (t, s') →
  (t, current_user) ∈ thread_participants s'.
Proof.
  unfold create_thread.
  destruct (length participant_ids <? 2)%nat; [done|].
  set (ps := list_to_set participant_ids ∪ {[current_user]} : gset string).
  assert (current_user ∈ ps) as Hcaller by set_solver.
  destruct (negb _); [done|].
  assert (∀ r, insert_thread ps new_id now s = Ok r →
               (r.1, current_user) ∈ thread_participants r.2) as Hnew.
  { intros r. unfold insert_thread.
    destruct (threads s !! new_id); [done|].
    intros [= <-]. simpl. apply elem_of_union. right.
    apply elem_of_map. by exists current_user. }
  destruct (size ps =? 2)%nat eqn:Hsize; [|intros H; exact (Hnew _ H)].
  apply Nat.eqb_eq in Hsize.
  destruct (elements (dedup_candidates ps s)) as [|t0 [|t1 rest]] eqn:Hrows;
    simpl; [intros H; exact (Hnew _ H) | | done].
  intros [= <- <-].
  assert (t0 ∈ dedup_candidates ps s) as Hin.
  { apply elem_of_elements. rewrite Hrows. by left. }
  unfold dedup_candidates, dedup_subquery in Hin.
  apply elem_of_filter in Hin as [Hin _].
  apply elem_of_filter in Hin as [Hcount _].
  by apply (rows_among_both ps).
Qed.

End Threads.

Module Threads.

(** Users [A], [B], [C] and no thread yet. *)
Definition empty_store : Store :=
  {| users := {[ "A" := true; "B" := true; "C" := true ]};
     threads := ∅; thread_participants := ∅; messages := ∅ |}.

(** The store after [A] created a thread with [B] ([T1]) and then a
    thread with [B] and [C] ([T2]). *)
Definition two_threads : Store :=
  {| users := {[ "A" := true; "B" := true; "C" := true ]};
     threads := {[ "T1" := {| thread_created_at := 1; thread_updated_at := 1 |};
                   "T2" := {| thread_created_at := 2; thread_updated_at := 2 |} ]};
     thread_participants :=
       {[ ("T1", "A"); ("T1", "B");
          ("T2", "A"); ("T2", "B"); ("T2", "C") ]};
     messages := ∅ |}.

End Threads.

(** Thread [t] exists and has both [a] and [b] among its participants. *)
Definition has_both (a b t : string) (s : Store) : Prop :=
  t ∈ dom (threads s)
  ∧ (t, a) ∈ thread_participants s ∧ (t, b) ∈ thread_participants s.

(** The participant set of thread [t]. *)
Definition members (t : string) (s : Store) : gset string :=
  set_map snd (filter (λ row, row.1 = t) (thread_participants s)).

Ltac by_computation :=
  match goal with
  | |- ?P => apply (@bool_decide_unpack P _); vm_compute; exact I
  end.

(** [A] asks for a thread of [B] and [C], not naming itself. *)
Lemma create_thread_includes_caller_witness :
  let s' := set_threads
              {[ "T1" := {| thread_created_at := 1; thread_updated_at := 1 |} ]}
              (set_thread_participants
                 {[ ("T1", "A"); ("T1", "B"); ("T1", "C") ]}
                 Threads.empty_store) in
  ("A" ∉ ["B"; "C"])
  ∧ create_thread ["B"; "C"] "A" "T1" 1 Threads.empty_store = Ok ("T1", s')
  ∧ ("T1", "A") ∈ thread_participants s'.
Proof.
  intros s'.
  assert (create_thread ["B"; "C"] "A" "T1" 1 Threads.empty_store
          = Ok ("T1", s')) as Hrun
    by (vm_compute; reflexivity).
  split; [by_computation|].
  split; [exact Hrun|].
  exact (create_thread_includes_caller _ _ _ _ _ _ _ Hrun).
Defined.

(** C6 (the code departs from it). [A] creates a thread with [B], then a
    thread with [B] and [C]; a two-party thread of exactly [A] and [B]
    now exists.  Creating a thread for [A] and [B] again does not answer
    with it: the query counts the rows of [A] and [B] per thread, finds
    both threads, and [scalar_one_or_none] raises. *)
Theorem two_party_dedup_raises_beside_group_thread :
  ∃ s1,
    create_thread ["A"; "B"] "A" "T1" 1 Threads.empty_store = Ok ("T1", s1)
    ∧ create_thread ["A"; "B"; "C"] "A" "T2" 2 s1
      = Ok ("T2", Threads.two_threads)
    ∧ members "T1" Threads.two_threads = {[ "A"; "B" ]}
    ∧ dedup_candidates {[ "A"; "B" ]} Threads.two_threads = {[ "T1"; "T2" ]}
    ∧ create_thread ["A"; "B"] "A" "T3" 3 Threads.two_threads
      = Raise MultipleResultsFound.
Proof. eexists. vm_compute. repeat split; reflexivity. Qed.

(** For two distinct users the dedup query selects exactly the threads
    that have both of them, whoever else is in the thread. *)
Lemma dedup_candidates_spec (a b t : string) (s : Store) :
  a ≠ b → t ∈ dedup_candidates {[a; b]} s ↔ has_both a b t s.
Proof.
  intros Hab. unfold dedup_candidates, dedup_subquery, has_both.
  rewrite !elem_of_filter, elem_of_map, elem_of_dom. split.
  - intros [[Hcount _] Hthread].
    assert (size ({[a; b]} : gset string) = 2) as Hsize.
    { rewrite size_union by set_solver. by rewrite !size_singleton. }
    split; [done|].
    split; apply (rows_among_both {[a; b]}); try done; set_solver.
  - intros (Hthread & Ha & Hb).
    split; [|done]. split; [by apply rows_among_pair|].
    by exists (t, a).
Qed.

(** C9 (the code departs from it). The requested participants and the
    caller make up exactly two users [a] and [b] of the store, and thread
    [t] has both among its participants, whoever else it has.  Then
    [create_thread] never creates a thread: either [t] is the only thread
    with both and is the answer, the store unchanged; or some other
    thread has both as well and the call raises, answering with no thread
    at all.  The query finds every thread with both users and
    [scalar_one_or_none] accepts one row at most. *)
Theorem create_thread_beside_threads_with_both
    (participant_ids : list string) (current_user new_id : string) (now : Z)
    (s : Store) (a b t : string) :
  (2 ≤ length participant_ids)%nat →
  list_to_set participant_ids ∪ {[current_user]} = ({[a; b]} : gset string) →
  a ≠ b →
  a ∈ dom (users s) → b ∈ dom (users s) →
  has_both a b t s →
  ((∀ t', has_both a b t' s → t' = t)
   ∧ create_thread participant_ids current_user new_id now s = Ok (t, s))
  ∨ ((∃ t', has_both a b t' s ∧ t' ≠ t)
     ∧ create_thread participant_ids current_user new_id now s
       = Raise MultipleResultsFound).
Proof.
  intros Hlen Hps Hab Ha Hb Hboth. unfold create_thread.
  apply Nat.ltb_ge in Hlen. rewrite Hlen, Hps.
  assert (filter (λ u, u ∈ ({[a; b]} : gset string)) (dom (users s))
          = ({[a; b]} : gset string)) as ->.
  { apply set_eq. intros u. rewrite elem_of_filter. set_solver. }
  rewrite Nat.eqb_refl. cbn [negb].
  assert (size ({[a; b]} : gset string) = 2) as ->.
  { rewrite size_union by set_solver. by rewrite !size_singleton. }
  cbn [Nat.eqb].
  assert (∀ t', t' ∈ elements (dedup_candidates {[a; b]} s) ↔ has_both a b t' s)
    as Hrows.
  { intros t'. rewrite elem_of_elements. by apply dedup_candidates_spec. }
  pose proof (NoDup_elements (dedup_candidates {[a; b]} s)) as Hnodup.
  destruct (elements (dedup_candidates {[a; b]} s)) as [|t0 [|t1 rest]].
  - apply Hrows in Hboth. by apply elem_of_nil in Hboth.
  - left. apply Hrows in Hboth. apply list_elem_of_singleton in Hboth as ->.
    split; [|done].
    intros t' Ht'. apply Hrows in Ht'. by apply list_elem_of_singleton in Ht'.
  - right. split; [|done].
    apply NoDup_cons in Hnodup as [Hfirst _].
    destruct (decide (t0 = t)) as [->|Hne].
    + exists t1. split; [apply Hrows; right; by left|].
      intros ->. apply Hfirst. by left.
    + exists t0. split; [apply Hrows; by left | done].
Qed.

(** After [A] created a thread with [B] and one with [B] and [C], the
    second has both [A] and [B] and yet is not the answer when [A] asks
    for a thread with [B]: the call raises. *)
Lemma create_thread_beside_threads_with_both_witness :
  has_both "A" "B" "T2" Threads.two_threads
  ∧ members "T2" Threads.two_threads = {[ "A"; "B"; "C" ]}
  ∧ create_thread ["A"; "B"] "A" "T3" 3 Threads.two_threads
    = Raise MultipleResultsFound.
Proof.
  assert (∀ t, t = "T1" ∨ t = "T2" → has_both "A" "B" t Threads.two_threads)
    as Hboth.
  { intros t [-> | ->];
      (split; [apply elem_of_dom; by eexists|]; split; by_computation). }
  split; [apply Hboth; by right|].
  split; [vm_compute; reflexivity|].
  destruct (create_thread_beside_threads_with_both
              ["A"; "B"] "A" "T3" 3 Threads.two_threads "A" "B" "T2")
    as [[Honly _] | [_ Hraise]].
  - simpl. lia.
  - vm_compute. reflexivity.
  - discriminate.
  - apply elem_of_dom. by eexists.
  - apply elem_of_dom. by eexists.
  - apply Hboth. by right.
  - by specialize (Honly "T1" (Hboth "T1" (or_introl eq_refl))).
  - exact Hraise.
Defined.

(** ** Read receipts *)

(** Who has read message [id], in the order recorded; a missing row or
    a null column reads as nobody. *)
Definition read_list (s : Store) (id : string) : list string :=
  match messages s !! id with
  | Some m => default [] (dm_read_by m)
  | None => []
  end.

(** From [s] to [s'] no message appeared or disappeared, and every
    [read_by] stayed as it was or got [user] appended. *)
Definition adds_at_most (user : string) (s s' : Store) : Prop :=
  dom (messages s') = dom (messages s)
  ∧ ∀ id, read_list s' id = read_list s id
          ∨ read_list s' id = read_list s id ++ [user].

Lemma adds_at_most_refl user s : adds_at_most user s s.
Proof. split; [done|]. by left. Qed.

Lemma adds_at_most_mark user id m s :
  messages s !! id = Some m →
  adds_at_most user s
    (set_messages
       (alter (with_read_by (default [] (dm_read_by m) ++ [user])) id
              (messages s)) s).
Proof.
  intros Hm. split; simpl; [apply dom_alter_L|].
  intros id'. unfold read_list. simpl.
  destruct (decide (id' = id)) as [->|Hne].
  - rewrite lookup_alter_eq, Hm. simpl. by right.
  - rewrite lookup_alter_ne by done. by left.
Qed.

Lemma list_items_read_by_or_empty m :
  list_items (read_by_or_empty m) = default [] (dm_read_by m).
Proof. unfold read_by_or_empty. by destruct (dm_read_by m) as [[|u l]|]. Qed.

(** After [append], the assigned list equals the remembered one exactly
    when it is the row's own list. *)
Lemma remembered_read_by_append m user :
  bool_decide (remembered_read_by m (list_append (read_by_or_empty m) user)
               = Some (list_items (read_by_or_empty m) ++ [user]))
  = held_by_row (read_by_or_empty m).
Proof.
  unfold remembered_read_by, read_by_or_empty.
  destruct (dm_read_by m) as [[|u l]|]; simpl; [done| |done].
  by apply bool_decide_eq_true.
Qed.

(** A new list is made only for a row that records nobody. *)
Lemma read_by_or_empty_new m :
  held_by_row (read_by_or_empty m) = false → default [] (dm_read_by m) = [].
Proof. unfold read_by_or_empty. by destruct (dm_read_by m) as [[|u l]|]. Qed.

Lemma read_by_or_empty_held m :
  held_by_row (read_by_or_empty m) = true → default [] (dm_read_by m) ≠ [].
Proof. unfold read_by_or_empty. by destruct (dm_read_by m) as [[|u l]|]. Qed.

Lemma find_message_Some message_id thread_id s id m :
  find_message message_id thread_id s = Some (id, m) →
  messages s !! id = Some m.
Proof.
  unfold find_message.
  destruct message_id; try done. destruct thread_id; try done.
  destruct (messages s !! _) as [m0|] eqn:E; [|done].
  case_match; [|done]. by intros [= <- <-].
Qed.

Section Receipts.
Context (env : Env) (user_id : string).

(** One session of a [read_receipt] frame: the store changes at most by
    the reader's mark, and the loop is left by [break]. *)
Lemma receipt_session_store message_id thread_id loc w :
  pending w = [] →
  ∃ w' r, receipt_session env user_id message_id thread_id loc w = (w', r)
        ∧ adds_at_most user_id (db w) (db w')
        ∧ ∀ c loc', r = Ok (c, loc') → c = Break.
Proof.
  intros Hp. unfold receipt_session, db_set_read_by, db_commit.
  unfold bind at 1, gets at 1.
  destruct (find_message message_id thread_id (db w)) as [[id m]|] eqn:Hfind.
  - apply find_message_Some in Hfind.
    case_bool_decide.
    + run. eexists _, _. split; [done|].
      split; [apply adds_at_most_refl|]. by intros c loc' [= <- _].
    + run. rewrite Hp. simpl. rewrite remembered_read_by_append.
      destruct (held_by_row (read_by_or_empty m)); simpl.
      * eexists _, _. split; [done|]. simpl.
        split; [apply adds_at_most_refl|]. by intros c loc' [= <- _].
      * eexists _, _. split; [done|]. simpl.
        rewrite list_items_read_by_or_empty.
        split; [by apply adds_at_most_mark|]. by intros c loc' [= <- _].
  - eexists _, _. split; [done|].
    split; [apply adds_at_most_refl|]. by intros c loc' [= <- _].
Qed.

Lemma async_for_receipt_store n message_id thread_id loc w :
  ∃ w' r, async_for n (receipt_session env user_id message_id thread_id) loc w
          = (w', r)
        ∧ adds_at_most user_id (db w) (db w').
Proof.
  destruct n as [|k]; simpl.
  - eexists _, _. split; [done|]. apply adds_at_most_refl.
  - unfold bind at 1, modify at 1.
    destruct (receipt_session_store message_id thread_id loc (set_pending [] w))
      as (w' & r & Hrun & Hstore & Hbreak); [done|].
    unfold bind at 1. rewrite Hrun.
    destruct r as [[c loc']|e].
    + rewrite (Hbreak c loc' eq_refl). eexists _, _. by split.
    + eexists _, _. by split.
Qed.

Lemma on_read_receipt_store message_data loc w :
  adds_at_most user_id (db w)
    (db (on_read_receipt env user_id message_data loc w).1).
Proof.
  unfold on_read_receipt.
  destruct message_data as [| | | | |items];
    try (simpl; apply adds_at_most_refl).
  unfold dict_get. unfold bind at 1, ret at 1. unfold bind at 1, ret at 1.
  case_match; [|apply adds_at_most_refl].
  match goal with
  | |- context [async_for _ (receipt_session _ _ ?mid ?tid) _] =>
      destruct (async_for_receipt_store (get_db env) mid tid loc w)
        as (w' & r & Hrun & Hstore)
  end.
  unfold bind at 1. rewrite Hrun.
  destruct r as [loc'|e]; [|done].
  match goal with
  | |- adds_at_most _ _ (db (?k w').1) =>
      assert (keeps db k) as Hk
  end.
  { apply keeps_bind; [apply keeps_load_local|]. intros ps.
    apply keeps_bind; [|intros; apply keeps_ret].
    by apply keeps_broadcast_to_thread. }
  by rewrite Hk.
Qed.

End Receipts.

Lemma mark_message_read_store thread_id message_id current_user s r s' :
  mark_message_read thread_id message_id current_user s = Ok (r, s') →
  adds_at_most current_user s s'.
Proof.
  unfold mark_message_read.
  destruct (negb _); [done|].
  destruct (find_message _ _ s) as [[id m]|] eqn:Hfind; [|done].
  apply find_message_Some in Hfind.
  case_bool_decide; [intros [= _ <-]; apply adds_at_most_refl|].
  simpl. rewrite remembered_read_by_append.
  destruct (held_by_row (read_by_or_empty m)); intros [= _ <-].
  - apply adds_at_most_refl.
  - rewrite list_items_read_by_or_empty. by apply adds_at_most_mark.
Qed.

(** A read operation: a [read_receipt] frame arriving on some connection
    (whatever else the frame carries and whatever that connection did
    before), or a call of the REST handler [mark_message_read]. *)
Inductive read_op :=
| ReadReceiptFrame (env : Env) (user_id : string) (websocket : nat)
    (fields : list (string * json)) (loc : Locals)
| MarkMessageRead (thread_id message_id current_user : string).

Definition reader (op : read_op) : string :=
  match op with
  | ReadReceiptFrame _ user_id _ _ _ => user_id
  | MarkMessageRead _ _ current_user => current_user
  end.

Definition run_read_op (w : World) (op : read_op) : World :=
  match op with
  | ReadReceiptFrame env user_id websocket fields loc =>
      (loop_body env user_id websocket
         (Some (JDict (("type", JStr "read_receipt") :: fields))) loc w).1
  | MarkMessageRead thread_id message_id current_user =>
      match mark_message_read thread_id message_id current_user (db w) with
      | Ok (_, s') => set_db s' w
      | Raise _ => w
      end
  end.

Lemma run_read_op_store w op :
  adds_at_most (reader op) (db w) (db (run_read_op w op)).
Proof.
  destruct op as [env user_id websocket fields loc|t m u]; simpl.
  - apply (on_read_receipt_store env user_id).
  - destruct (mark_message_read t m u (db w)) as [[r s']|e] eqn:Hrun.
    + simpl. by apply (mark_message_read_store t m u _ r).
    + apply adds_at_most_refl.
Qed.

(** C7. Every read operation, over the WebSocket or over REST, leaves
    each message's [read_by] as it was or appends the caller to it, and
    removes no message; so over any sequence of such operations the
    earlier [read_by] of a message is a prefix of the later one. *)
Theorem read_by_only_grows :
  (∀ w op id,
     read_list (db (run_read_op w op)) id = read_list (db w) id
     ∨ read_list (db (run_read_op w op)) id = read_list (db w) id ++ [reader op])
  ∧ (∀ ops w id,
       read_list (db w) id `prefix_of` read_list (db (foldl run_read_op w ops)) id)
  ∧ (∀ ops w,
       dom (messages (db (foldl run_read_op w ops))) = dom (messages (db w))).
Proof.
  split; [|split].
  - intros w op id. apply run_read_op_store.
  - intros ops. induction ops as [|op ops IH]; intros w id; simpl; [done|].
    etrans; [|apply IH].
    destruct (run_read_op_store w op) as [_ Hread].
    destruct (Hread id) as [-> | ->]; [done | by apply prefix_app_r].
  - intros ops. induction ops as [|op ops IH]; intros w; simpl; [done|].
    rewrite IH. apply run_read_op_store.
Qed.

(** * Further properties of the gateway *)

(** ** The registry as a data structure *)

(** No user is registered with an empty set of connections. *)
Definition no_empty_entries (m : ConnectionManager) : Prop :=
  ∀ user_id conns, active_connections m !! user_id = Some conns → conns ≠ ∅.

Lemma registry_add_no_empty ws user_id m :
  no_empty_entries m → no_empty_entries (registry_add ws user_id m).
Proof.
  intros Hm u conns. unfold registry_add. simpl.
  destruct (decide (user_id = u)) as [->|Hne].
  - rewrite lookup_insert_eq. intros [= <-]. set_solver.
  - rewrite lookup_insert_ne by done. apply Hm.
Qed.

Lemma registry_discard_no_empty ws user_id m :
  no_empty_entries m → no_empty_entries (registry_discard ws user_id m).
Proof.
  intros Hm u conns. unfold registry_discard.
  destruct (active_connections m !! user_id) as [cs|] eqn:E; [|apply Hm].
  simpl. case_decide as Hempty.
  - destruct (decide (user_id = u)) as [->|Hne].
    + by rewrite lookup_delete_eq.
    + rewrite lookup_delete_ne by done. apply Hm.
  - destruct (decide (user_id = u)) as [->|Hne].
    + rewrite lookup_insert_eq. by intros [= <-].
    + rewrite lookup_insert_ne by done. apply Hm.
Qed.

Lemma connections_of_discard_ne c user_id other m :
  other ≠ user_id →
  connections_of other (registry_discard c user_id m) = connections_of other m.
Proof.
  intros Hne. unfold connections_of, registry_discard.
  destruct (active_connections m !! user_id) as [conns|]; [|done].
  simpl. case_decide.
  - by rewrite lookup_delete_ne.
  - by rewrite lookup_insert_ne.
Qed.

Lemma connections_of_add ws user_id m :
  connections_of user_id (registry_add ws user_id m)
  = {[ws]} ∪ connections_of user_id m.
Proof. unfold connections_of, registry_add. simpl. by rewrite lookup_insert_eq. Qed.

(** Whatever holds of the registry and survives [disconnect] survives
    [send_personal_message] and [broadcast_to_thread]. *)
Lemma send_personal_message_manager (P : ConnectionManager → Prop)
    env message user_id w :
  (∀ c u m, P m → P (registry_discard c u m)) →
  P (manager w) → P (manager (send_personal_message env message user_id w).1).
Proof.
  intros Hstep Hw.
  destruct (active_connections (manager w) !! user_id) as [conns|] eqn:E.
  - rewrite (send_personal_message_run env message user_id conns) by done.
    simpl. generalize (filter (λ c, c ∈ broken env) (elements conns)).
    intros cs. revert Hw. generalize (manager w).
    induction cs as [|c rest IH]; intros m Hm; simpl; [done|].
    apply IH. by apply Hstep.
  - by rewrite send_personal_message_absent.
Qed.

Lemma broadcast_to_thread_manager (P : ConnectionManager → Prop)
    env message ps w :
  (∀ c u m, P m → P (registry_discard c u m)) →
  P (manager w) → P (manager (broadcast_to_thread env message ps w).1).
Proof.
  intros Hstep. revert w. induction ps as [|p rest IH]; intros w Hw; [done|].
  simpl. unfold bind.
  pose proof (send_personal_message_manager P env message p w Hstep Hw) as H1.
  destruct (send_personal_message_shape env message p w) as (evs & m' & E & _).
  rewrite E in *. simpl in *. by apply IH.
Qed.

(** X1. The registry never holds a user with an empty set of
    connections: [connect], [disconnect], [send_personal_message] and
    [broadcast_to_thread] all keep that. *)
Theorem registry_keeps_no_empty_entries
    (env : Env) (ws : nat) (user_id : string) (message : json)
    (ps : list string) (w : World) :
  no_empty_entries (manager w) →
  no_empty_entries (manager (connect ws user_id w).1)
  ∧ no_empty_entries (manager (disconnect ws user_id w).1)
  ∧ no_empty_entries (manager (send_personal_message env message user_id w).1)
  ∧ no_empty_entries (manager (broadcast_to_thread env message ps w).1).
Proof.
  intros Hw. split; [|split; [|split]].
  - by apply registry_add_no_empty.
  - by apply registry_discard_no_empty.
  - apply send_personal_message_manager; [|done].
    intros. by apply registry_discard_no_empty.
  - apply broadcast_to_thread_manager; [|done].
    intros. by apply registry_discard_no_empty.
Qed.

Lemma registry_keeps_no_empty_entries_witness :
  no_empty_entries (manager Scenario.w1)
  ∧ no_empty_entries (manager (disconnect 1 "U1" Scenario.w1).1).
Proof.
  assert (no_empty_entries (manager Scenario.w1)) as Hw.
  { change (map_Forall (λ _ conns, conns ≠ (∅ : gset nat))
              (active_connections (manager Scenario.w1))).
    by_computation. }
  split; [exact Hw|].
  apply (registry_keeps_no_empty_entries Scenario.env1 1 "U1" JNull [] _ Hw).
Defined.

(** X2. Registering a connection and unregistering it again gives back
    the registry as it was, provided the connection was not already
    registered for that user and the registry held no empty set. *)
Theorem connect_then_disconnect_restores
    (ws : nat) (user_id : string) (w : World) :
  ws ∉ connections_of user_id (manager w) →
  no_empty_entries (manager w) →
  manager (bind (connect ws user_id) (λ _, disconnect ws user_id) w).1
  = manager w.
Proof.
  intros Hnew Hw. unfold connect, disconnect, bind, modify. simpl.
  unfold connections_of in Hnew.
  destruct (manager w) as [reg r p] eqn:Em. simpl in *.
  unfold registry_discard, registry_add. simpl.
  rewrite lookup_insert_eq. simpl. f_equal.
  destruct (reg !! user_id) as [conns|] eqn:E; simpl in *.
  - assert (({[ws]} ∪ conns) ∖ {[ws]} = conns) as -> by set_solver.
    rewrite decide_False by (by apply (Hw user_id)).
    rewrite insert_insert_eq. by apply insert_id.
  - assert (({[ws]} ∪ ∅) ∖ {[ws]} = (∅ : gset nat)) as -> by set_solver.
    rewrite decide_True by done.
    rewrite delete_insert_eq. by apply delete_id.
Qed.

Lemma connect_then_disconnect_restores_witness :
  (4%nat ∉ connections_of "U1" (manager Scenario.w1))
  ∧ manager (bind (connect 4 "U1") (λ _, disconnect 4 "U1") Scenario.w1).1
    = manager Scenario.w1.
Proof.
  assert (4%nat ∉ connections_of "U1" (manager Scenario.w1)) as Hnew
    by by_computation.
  split; [exact Hnew|].
  apply (connect_then_disconnect_restores 4 "U1" Scenario.w1 Hnew).
  change (map_Forall (λ _ conns, conns ≠ (∅ : gset nat))
            (active_connections (manager Scenario.w1))).
  by_computation.
Defined.

Section Fanout.
Context (env : Env).

(** One [send_personal_message]: the addressed user loses the
    connections that fail, everybody else keeps theirs. *)
Lemma send_personal_message_registry message user_id w other :
  connections_of other (manager (send_personal_message env message user_id w).1)
  = if decide (other = user_id)
    then connections_of other (manager w) ∖ broken env
    else connections_of other (manager w).
Proof.
  destruct (active_connections (manager w) !! user_id) as [conns|] eqn:E.
  - rewrite (send_personal_message_run env message user_id conns) by done.
    simpl. case_decide as Hu.
    + subst other. rewrite connections_of_discard_all.
      unfold connections_of. rewrite E. simpl. apply set_eq. intros c.
      rewrite !elem_of_difference, elem_of_list_to_set, list_elem_of_filter,
        elem_of_elements.
      tauto.
    + generalize (filter (λ c, c ∈ broken env) (elements conns)). intros cs.
      generalize (manager w). induction cs as [|c rest IH]; intros m; [done|].
      simpl. rewrite IH. by apply connections_of_discard_ne.
  - rewrite send_personal_message_absent by done.
    case_decide as Hu; [|done]. subst other.
    unfold connections_of. simpl. rewrite E. simpl.
    apply set_eq. intros c. rewrite elem_of_difference.
    split; [intros Hc | intros [Hc _]]; by apply not_elem_of_empty in Hc.
Qed.

(** One [send_personal_message] hands the payload once to each working
    connection of the addressed user and to nobody else. *)
Lemma send_personal_message_delivered message user_id w c :
  c ∉ broken env →
  delivered c (trace (send_personal_message env message user_id w).1)
  = delivered c (trace w)
    ++ (if decide (c ∈ connections_of user_id (manager w)) then [message] else []).
Proof.
  intros Hlive.
  destruct (active_connections (manager w) !! user_id) as [conns|] eqn:E.
  - rewrite (send_personal_message_run env message user_id conns) by done.
    simpl. rewrite delivered_app. f_equal.
    unfold connections_of. rewrite E. simpl. case_decide.
    + apply delivered_send_events; [apply NoDup_elements| |done].
      by apply elem_of_elements.
    + apply delivered_send_events_absent. by rewrite elem_of_elements.
  - rewrite send_personal_message_absent by done.
    unfold connections_of. rewrite E. simpl.
    rewrite decide_False by set_solver. by rewrite app_nil_r.
Qed.

(** X3. After [broadcast_to_thread] every listed user is registered with
    exactly the connections that did not fail, and every other user with
    the connections it had. *)
Theorem broadcast_to_thread_prunes_registry
    (message : json) (ps : list string) (w : World) (user_id : string) :
  connections_of user_id (manager (broadcast_to_thread env message ps w).1)
  = if decide (user_id ∈ ps)
    then connections_of user_id (manager w) ∖ broken env
    else connections_of user_id (manager w).
Proof.
  revert w. induction ps as [|p rest IH]; intros w; simpl.
  - done.
  - unfold bind.
    pose proof (send_personal_message_registry message p w user_id) as H1.
    destruct (send_personal_message_shape env message p w) as (evs & m' & E & _).
    rewrite E in *. simpl in H1. rewrite IH. simpl. rewrite H1.
    destruct (decide (user_id = p)) as [->|Hne].
    + rewrite (decide_True (P := p ∈ p :: rest)) by (by left).
      case_decide; [|done].
      apply set_eq. intros c. rewrite !elem_of_difference. tauto.
    + destruct (decide (user_id ∈ rest)).
      * by rewrite (decide_True (P := user_id ∈ p :: rest)) by (by right).
      * rewrite (decide_False (P := user_id ∈ p :: rest)); [done|].
        by intros [?|?]%elem_of_cons.
Qed.

(** How often a list of addressees names a user that connection [c] is
    registered for. *)
Definition addressed (c : nat) (m : ConnectionManager) (ps : list string) : nat :=
  length (filter (λ p, c ∈ connections_of p m) ps).

Lemma broadcast_to_thread_delivered message ps w c :
  c ∉ broken env →
  delivered c (trace (broadcast_to_thread env message ps w).1)
  = delivered c (trace w)
    ++ replicate
         (length (filter (λ p, c ∈ connections_of p (manager w)) ps)) message.
Proof.
  intros Hlive. revert w. induction ps as [|p rest IH]; intros w; simpl.
  - by rewrite app_nil_r.
  - unfold bind.
    pose proof (send_personal_message_delivered message p w c Hlive) as H1.
    pose proof (send_personal_message_registry message p w) as H2.
    destruct (send_personal_message_shape env message p w) as (evs & m' & E & _).
    rewrite E in *. simpl in H1, H2. rewrite IH. simpl. rewrite H1.
    rewrite <- app_assoc. f_equal.
    assert (filter (λ p0, c ∈ connections_of p0 m') rest
            = filter (λ p0, c ∈ connections_of p0 (manager w)) rest) as ->.
    { apply list_filter_iff. intros u. rewrite H2.
      destruct (decide (u = p)); [|done]. rewrite elem_of_difference. tauto. }
    rewrite filter_cons. by case_decide.
Qed.

(** X4. [broadcast_to_thread] hands the payload to a working connection
    once for every listed participant it is registered for, in
    particular not at all when it belongs to no listed participant. *)
Theorem broadcast_to_thread_delivery_count
    (message : json) (ps : list string) (w : World) (c : nat) :
  c ∉ broken env →
  delivered c (trace (broadcast_to_thread env message ps w).1)
  = delivered c (trace w) ++ replicate (addressed c (manager w) ps) message.
Proof. apply broadcast_to_thread_delivered. Qed.

End Fanout.

Lemma broadcast_to_thread_delivery_count_witness :
  (2%nat ∉ broken Scenario.env1)
  ∧ delivered 2 (trace (broadcast_to_thread Scenario.env1 Scenario.pong
                          ["U1"; "U2"] Scenario.w1).1)
    = [Scenario.pong].
Proof.
  assert (2%nat ∉ broken Scenario.env1) as Hlive by by_computation.
  split; [exact Hlive|].
  rewrite (broadcast_to_thread_delivery_count Scenario.env1 Scenario.pong
             ["U1"; "U2"] Scenario.w1 2 Hlive).
  vm_compute. reflexivity.
Defined.

(** ** Sessions *)

(** X5. Whatever the client sends and whichever sockets fail, a session
    returns normally and leaves its connection unregistered; the store is
    touched by the frames only. *)
Theorem session_always_unregisters
    (env : Env) (user_id : string) (websocket : nat)
    (texts : list (option json)) (w : World) :
  ∃ w', session env user_id websocket texts w = (w', Ok tt)
      ∧ websocket ∉ connections_of user_id (manager w').
Proof.
  unfold session, connect. unfold bind at 1. unfold bind at 1, modify at 1.
  unfold modify at 1. unfold bind at 1, try_except.
  match goal with
  | |- context [bind (gets clock) ?k ?w0] => destruct (bind (gets clock) k w0)
      as [w2 [[]|e]]
  end; unfold ret; simpl; eexists; (split; [done|]); simpl;
    rewrite connections_of_discard; set_solver.
Qed.

(** X6. Only an access token naming an active user of the store opens a
    session; on anything else the endpoint closes the socket with code
    1008 and does nothing more. *)
Theorem endpoint_serves_active_users_only
    (env : Env) (websocket : nat) (payload : option json)
    (texts : list (option json)) (w : World) :
  (∃ items user_id,
     payload = Some (JDict items)
     ∧ assoc "type" items = Some (JStr "access")
     ∧ assoc "sub" items = Some (JStr user_id)
     ∧ users (db w) !! user_id = Some true
     ∧ websocket_endpoint env websocket payload texts w
       = session env user_id websocket texts w)
  ∨ websocket_endpoint env websocket payload texts w
    = (emit (EvClose websocket 1008 "Unauthorized") w, Ok tt).
Proof.
  unfold websocket_endpoint, bind, gets.
  destruct (get_user_from_token payload (db w)) as [u|] eqn:Hauth; [|by right].
  left. unfold get_user_from_token in Hauth.
  destruct payload as [[| | | | |items]|]; try done.
  destruct (negb (truthy (JDict items))); [done|].
  destruct (assoc "type" items) as [ty|] eqn:Hty; simpl in Hauth; [|done].
  destruct ty as [| | |ty| |]; simpl in Hauth; try done.
  destruct (String.eqb ty "access") eqn:Hacc; simpl in Hauth; [|done].
  apply String.eqb_eq in Hacc as ->.
  destruct (assoc "sub" items) as [[| | |sub| |]|] eqn:Hsub; try done.
  destruct (negb (negb (sub =? ""))); [done|].
  destruct (users (db w) !! sub) as [[]|] eqn:Huser; try done.
  injection Hauth as <-. by exists items, sub.
Qed.

Section Frames.
Context (env : Env) (user_id : string) (websocket : nat).

(** X7. A [message] frame whose [thread_id] or [content] is missing,
    null or empty is answered with the "Missing thread_id or content"
    error frame on a working socket; the session goes on with its
    variables, the store and the registry as they were. *)
Theorem message_without_fields_is_refused
    (items : list (string * json)) (loc : Locals) (w : World) :
  assoc "type" items = Some (JStr "message") →
  truthy (default JNull (assoc "thread_id" items))
  && truthy (default JNull (assoc "content" items)) = false →
  websocket ∉ broken env →
  loop_body env user_id websocket (Some (JDict items)) loc w
  = (emit (EvSendJson websocket (error_frame "Missing thread_id or content")) w,
     Ok loc).
Proof.
  intros Hty Hmissing Hlive.
  unfold loop_body, on_message, dict_get. rewrite Hty.
  unfold bind at 1, ret at 1. simpl str_eqb. cbv iota.
  unfold bind at 1, ret at 1. unfold bind at 1, ret at 1.
  assert (negb (truthy match assoc "thread_id" items with
                       | Some v => v | None => JNull end)
          || negb (truthy match assoc "content" items with
                          | Some v => v | None => JNull end) = true) as ->.
  { destruct (assoc "thread_id" items) as [t|];
      destruct (assoc "content" items) as [c|];
      simpl in Hmissing; simpl;
      try destruct (truthy t); try destruct (truthy c); done. }
  cbn [orb negb]. unfold bind, send_json.
  by destruct (decide (websocket ∈ broken env)).
Qed.

End Frames.

Lemma message_without_fields_is_refused_witness :
  assoc "type" [("type", JStr "message"); ("thread_id", JStr "T1");
                ("content", JStr "")] = Some (JStr "message")
  ∧ loop_body Scenario.env1 "U1" 1
      (Some (JDict [("type", JStr "message"); ("thread_id", JStr "T1");
                    ("content", JStr "")])) fresh_locals Scenario.w1
    = (emit (EvSendJson 1 (error_frame "Missing thread_id or content"))
         Scenario.w1, Ok fresh_locals).
Proof.
  split; [reflexivity|].
  apply (message_without_fields_is_refused Scenario.env1 "U1" 1).
  - reflexivity.
  - reflexivity.
  - by_computation.
Defined.

(** ** The REST handlers *)

Lemma find_message_found message_id thread_id s m :
  messages s !! message_id = Some m →
  col_eqb thread_id (dm_thread_id m) = true →
  find_message (JStr message_id) (JStr thread_id) s = Some (message_id, m).
Proof. intros Hm Ht. unfold find_message. by rewrite Hm, Ht. Qed.

Lemma find_message_inv message_id thread_id s id m :
  find_message (JStr message_id) (JStr thread_id) s = Some (id, m) →
  id = message_id ∧ messages s !! message_id = Some m
  ∧ col_eqb thread_id (dm_thread_id m) = true.
Proof.
  unfold find_message. destruct (messages s !! message_id) as [m0|]; [|done].
  destruct (col_eqb thread_id (dm_thread_id m0)) eqn:Ht; [|done].
  by intros [= <- <-].
Qed.

(** X8. A successful [mark_message_read] records the caller only where
    the message's [read_by] was NULL or empty, and then [read_by] is the
    caller alone; a [read_by] that lists somebody is left as it was, since
    the row's own list is changed in place and assigned back, which the
    session does not take for a change.  Calling again gives the same
    answer and the same store: marking is idempotent. *)
Theorem mark_message_read_idempotent
    (thread_id message_id current_user : string) (s s' : Store) (r : json) :
  mark_message_read thread_id message_id current_user s = Ok (r, s') →
  read_list s' message_id
  = (if bool_decide (read_list s message_id = []) then [current_user]
     else read_list s message_id)
  ∧ mark_message_read thread_id message_id current_user s' = Ok (r, s').
Proof.
  unfold mark_message_read.
  destruct (is_participant (JStr thread_id) current_user s) eqn:Hp; [|done].
  cbn [negb].
  destruct (find_message _ _ s) as [[id m]|] eqn:Hfind; [|done].
  apply find_message_inv in Hfind as (-> & Hm & Ht).
  assert (read_list s message_id = default [] (dm_read_by m)) as Hlist.
  { unfold read_list. by rewrite Hm. }
  rewrite Hlist.
  assert (
    Ok (JDict [("message", JStr "Message marked as read")], s) = Ok (r, s') →
    default [] (dm_read_by m) ≠ [] →
    read_list s' message_id
    = (if bool_decide (default [] (dm_read_by m) = []) then [current_user]
       else default [] (dm_read_by m))
    ∧ (if negb (is_participant (JStr thread_id) current_user s')
       then Raise (HTTPException 403 "Not a participant in this thread")
       else
         match find_message (JStr message_id) (JStr thread_id) s' with
         | None => Raise (HTTPException 404 "Message not found")
         | Some (id, message) =>
             if bool_decide (current_user ∈ list_items (read_by_or_empty message))
             then Ok (JDict [("message", JStr "Message marked as read")], s')
             else
               if bool_decide
                    (remembered_read_by message
                       (list_append (read_by_or_empty message) current_user)
                     = Some (list_items
                               (list_append (read_by_or_empty message)
                                  current_user)))
               then Ok (JDict [("message", JStr "Message marked as read")], s')
               else Ok (JDict [("message", JStr "Message marked as read")],
                        set_messages
                          (alter (with_read_by
                                    (list_items
                                       (list_append (read_by_or_empty message)
                                          current_user)))
                                 id (messages s')) s')
         end) = Ok (r, s')) as Hsame.
  { intros [= <- <-] Hsome.
    split; [by rewrite bool_decide_false|].
    rewrite Hp. cbn [negb]. rewrite (find_message_found _ _ _ m) by done.
    case_bool_decide; [done|].
    cbn [list_append list_items]. rewrite remembered_read_by_append.
    destruct (held_by_row (read_by_or_empty m)) eqn:Hheld; [done|].
    by apply read_by_or_empty_new in Hheld. }
  destruct (bool_decide (current_user ∈ list_items (read_by_or_empty m)))
    eqn:Hread.
  - intros Hrun. apply (Hsame Hrun). apply bool_decide_eq_true in Hread.
    rewrite list_items_read_by_or_empty in Hread. intros Hnil.
    rewrite Hnil in Hread. by apply elem_of_nil in Hread.
  - cbn [list_append list_items]. rewrite remembered_read_by_append.
    destruct (held_by_row (read_by_or_empty m)) eqn:Hheld.
    + intros Hrun. apply (Hsame Hrun). by apply read_by_or_empty_held.
    + apply read_by_or_empty_new in Hheld as Hnil.
      rewrite list_items_read_by_or_empty, Hnil. cbn [app].
      intros [= <- <-].
      assert (messages
                (set_messages
                   (alter (with_read_by [current_user]) message_id (messages s))
                   s) !! message_id
              = Some (with_read_by [current_user] m)) as Hm'.
      { simpl. by rewrite lookup_alter_eq, Hm. }
      split.
      * unfold read_list. by rewrite Hm'.
      * change (is_participant (JStr thread_id) current_user
                  (set_messages
                     (alter (with_read_by [current_user]) message_id
                        (messages s)) s))
          with (is_participant (JStr thread_id) current_user s).
        rewrite Hp. cbn [negb].
        rewrite (find_message_found _ _ _ _ Hm') by done.
        rewrite bool_decide_true; [done|].
        rewrite list_items_read_by_or_empty. simpl. set_solver.
Qed.

(** [U2] marks a message that [U1], its sender, is recorded for: the
    call succeeds and [read_by] stays as it was. *)
Lemma mark_message_read_idempotent_witness :
  let s := set_messages
             {[ "m" := stamp 10 (message_row "U1" [] (JStr "T1") (JStr "hi")) ]}
             Scenario.store1 in
  ∃ r s', mark_message_read "T1" "m" "U2" s = Ok (r, s')
        ∧ read_list s "m" = ["U1"]
        ∧ read_list s' "m" = ["U1"]
        ∧ mark_message_read "T1" "m" "U2" s' = Ok (r, s').
Proof.
  intros s.
  destruct (mark_message_read "T1" "m" "U2" s) as [[r s']|e] eqn:Hrun;
    [|by vm_compute in Hrun].
  exists r, s'. split; [done|].
  destruct (mark_message_read_idempotent "T1" "m" "U2" s s' r Hrun)
    as [Hread Hagain].
  split; [vm_compute; reflexivity|].
  split; [|exact Hagain].
  rewrite Hread. vm_compute. reflexivity.
Defined.

(** X9. [mark_message_read] writes nothing but [read_by]: users,
    threads and participants stay as they are, no message appears or
    disappears, and every message keeps its thread, sender, content,
    attachments and creation time. *)
Theorem mark_message_read_touches_read_by_only
    (thread_id message_id current_user : string) (s s' : Store) (r : json) :
  mark_message_read thread_id message_id current_user s = Ok (r, s') →
  users s' = users s ∧ threads s' = threads s
  ∧ thread_participants s' = thread_participants s
  ∧ ∀ id, match messages s !! id, messages s' !! id with
          | Some m, Some m' =>
              dm_thread_id m' = dm_thread_id m
              ∧ dm_sender_id m' = dm_sender_id m
              ∧ dm_content m' = dm_content m
              ∧ dm_attachments m' = dm_attachments m
              ∧ dm_created_at m' = dm_created_at m
          | None, None => True
          | _, _ => False
          end.
Proof.
  unfold mark_message_read.
  destruct (negb _); [done|].
  destruct (find_message _ _ s) as [[id0 m0]|] eqn:Hfind; [|done].
  assert (∀ r0, Ok (r0, s) = Ok (r, s') →
            users s' = users s ∧ threads s' = threads s
            ∧ thread_participants s' = thread_participants s
            ∧ ∀ id, match messages s !! id, messages s' !! id with
                    | Some m, Some m' =>
                        dm_thread_id m' = dm_thread_id m
                        ∧ dm_sender_id m' = dm_sender_id m
                        ∧ dm_content m' = dm_content m
                        ∧ dm_attachments m' = dm_attachments m
                        ∧ dm_created_at m' = dm_created_at m
                    | None, None => True
                    | _, _ => False
                    end) as Hsame.
  { intros r0 [= _ <-]. do 3 (split; [done|]).
    intros id. by destruct (messages s !! id). }
  case_bool_decide; [apply Hsame|].
  case_bool_decide; [apply Hsame|]. intros [= _ <-].
  - do 3 (split; [done|]). intros id. simpl.
    destruct (decide (id = id0)) as [->|Hne].
    + rewrite lookup_alter_eq. by destruct (messages s !! id0).
    + rewrite lookup_alter_ne by done. by destruct (messages s !! id).
Qed.

Lemma mark_message_read_touches_read_by_only_witness :
  let s := set_messages
             {[ "m" := stamp 10 (message_row "U1" [] (JStr "T1") (JStr "hi")) ]}
             Scenario.store1 in
  ∃ r s', mark_message_read "T1" "m" "U2" s = Ok (r, s')
        ∧ thread_participants s' = thread_participants s.
Proof.
  intros s.
  destruct (mark_message_read "T1" "m" "U2" s) as [[r s']|e] eqn:Hrun;
    [|by vm_compute in Hrun].
  exists r, s'. split; [done|].
  by destruct (mark_message_read_touches_read_by_only "T1" "m" "U2" s s' r Hrun)
    as (_ & _ & Hps & _).
Defined.

(** X10. A successful [send_message] is made by a participant with a
    non-empty content, and stores exactly one new message under the
    given identifier: sent by the caller, read by the caller only, with
    the content and attachments of the request (no attachments when none
    are given) and the creation time [now].  All other messages, the
    users and the participants are as before, and the thread written to,
    if it exists, has [updated_at] set to [now] while every other thread
    is untouched. *)
Theorem send_message_stores_one_message
    (thread_id content : string) (attachments : option (list string))
    (current_user new_id : string) (now : Z) (s s' : Store) (id : string) :
  send_message thread_id content attachments current_user new_id now s
  = Ok (id, s') →
  id = new_id ∧ content ≠ ""
  ∧ (thread_id, current_user) ∈ thread_participants s
  ∧ messages s !! new_id = None
  ∧ messages s' !! new_id
    = Some {| dm_thread_id := JStr thread_id; dm_sender_id := current_user;
              dm_content := JStr content;
              dm_attachments := JList (JStr <$> default [] attachments);
              dm_read_by := Some [current_user]; dm_created_at := now |}
  ∧ (∀ other, other ≠ new_id → messages s' !! other = messages s !! other)
  ∧ users s' = users s ∧ thread_participants s' = thread_participants s
  ∧ thread_updated_at <$> threads s' !! thread_id
    = (λ _, now) <$> threads s !! thread_id
  ∧ thread_created_at <$> threads s' !! thread_id
    = thread_created_at <$> threads s !! thread_id
  ∧ (∀ other, other ≠ thread_id → threads s' !! other = threads s !! other).
Proof.
  unfold send_message.
  destruct (String.eqb content "") eqn:Hcontent; [done|].
  apply String.eqb_neq in Hcontent.
  destruct (is_participant (JStr thread_id) current_user s) eqn:Hp; [|done].
  cbn [negb]. simpl in Hp. apply bool_decide_eq_true in Hp.
  destruct (messages s !! new_id) eqn:Hfresh; [done|].
  intros [= <- <-]. simpl.
  do 4 (split; [done|]). split; [by rewrite lookup_insert_eq|].
  split; [by intros other Hne; rewrite lookup_insert_ne|].
  do 2 (split; [done|]).
  destruct (threads s !! thread_id) as [th|] eqn:Hth; simpl.
  - rewrite lookup_insert_eq. simpl. do 2 (split; [done|]).
    intros other Hne. by rewrite lookup_insert_ne.
  - by rewrite Hth.
Qed.

Lemma send_message_stores_one_message_witness :
  ∃ s', send_message "T1" "hi" None "U1" "m" 10 Scenario.store1 = Ok ("m", s')
      ∧ thread_updated_at <$> threads s' !! "T1" = Some 10%Z.
Proof.
  destruct (send_message "T1" "hi" None "U1" "m" 10 Scenario.store1)
    as [[id s']|e] eqn:Hrun; [|by vm_compute in Hrun].
  destruct (send_message_stores_one_message _ _ _ _ _ _ _ _ _ Hrun)
    as (-> & _ & _ & _ & _ & _ & _ & _ & Hupdated & _).
  exists s'. split; [done|]. by rewrite Hupdated.
Defined.

Lemma size_2_pair (ps : gset string) :
  size ps = 2 → ∃ a b, a ≠ b ∧ ps = {[a; b]}.
Proof.
  intros Hsize.
  destruct (size_pos_elem_of ps) as [a Ha]; [lia|].
  assert (size (ps ∖ {[a]}) = 1) as Hrest.
  { rewrite size_difference by set_solver. rewrite size_singleton. lia. }
  apply size_1_elem_of in Hrest as [b Hb].
  exists a, b. split.
  - intros ->. assert (b ∈ ps ∖ {[b]}) as Hin by (rewrite Hb; set_solver).
    set_solver.
  - apply set_eq. intros u. destruct (decide (u = a)) as [->|Hne].
    + set_solver.
    + assert (u ∈ ps ↔ u ∈ ps ∖ {[a]}) as -> by set_solver.
      rewrite Hb. set_solver.
Qed.

(** The users the existence check of [create_thread] finds are all the
    requested ones exactly when every requested one exists. *)
Lemma found_users_all (ps : gset string) (s : Store) :
  size (filter (λ u, u ∈ ps) (dom (users s))) = size ps ↔ ps ⊆ dom (users s).
Proof.
  assert (filter (λ u, u ∈ ps) (dom (users s)) ⊆ ps) as Hsub.
  { intros u Hu. by apply elem_of_filter in Hu as [? _]. }
  split.
  - intros Hsize u Hu.
    assert (filter (λ u, u ∈ ps) (dom (users s)) = ps) as Heq.
    { apply set_subseteq_size_eq; [done | lia]. }
    rewrite <- Heq in Hu. by apply elem_of_filter in Hu as [_ ?].
  - intros Hall. f_equal. apply set_eq. intros u.
    rewrite elem_of_filter. set_solver.
Qed.

(** X11. Two-party [create_thread] is idempotent: when the requested
    participants and the caller make up two users and the call succeeds,
    the same request made again, with whatever fresh identifier and
    time, answers with the same thread and leaves the store as the
    first call left it. *)
Theorem create_thread_two_party_idempotent
    (participant_ids : list string) (current_user : string)
    (id1 id2 : string) (now1 now2 : Z) (s s1 : Store) (t : string) :
  size (list_to_set participant_ids ∪ {[current_user]} : gset string) = 2 →
  create_thread participant_ids current_user id1 now1 s = Ok (t, s1) →
  create_thread participant_ids current_user id2 now2 s1 = Ok (t, s1).
Proof.
  intros Hsize. unfold create_thread.
  destruct (length participant_ids <? 2)%nat; [done|].
  set (ps := list_to_set participant_ids ∪ {[current_user]} : gset string) in *.
  rewrite Hsize. cbn [Nat.eqb].
  destruct (negb (size (filter (λ u, u ∈ ps) (dom (users s))) =? 2)%nat)
    eqn:Hfound; [done|].
  destruct (elements (dedup_candidates ps s)) as [|t0 [|t1 rest]] eqn:Hrows;
    simpl; [| |done].
  - unfold insert_thread. destruct (threads s !! id1) eqn:Hfresh; [done|].
    intros [= <- <-]. cbn [users set_thread_participants set_threads].
    rewrite Hfound.
    destruct (size_2_pair ps Hsize) as (a & b & Hab & Hps).
    match goal with
    | |- context [dedup_candidates ps ?s1] =>
        assert (dedup_candidates ps s1 = {[id1]}) as ->
    end.
    { apply set_eq. intros t'. rewrite Hps, dedup_candidates_spec by done.
      rewrite elem_of_singleton. unfold has_both. simpl.
      rewrite dom_insert_L, !elem_of_union, !elem_of_map, elem_of_singleton.
      split.
      - intros (Hdom & Ha & Hb).
        destruct (decide (t' = id1)) as [|Hne]; [done|]. exfalso.
        assert (t' ∈ dedup_candidates ps s) as Hin.
        { rewrite Hps. apply dedup_candidates_spec; [done|].
          split; [by destruct Hdom|].
          split; [destruct Ha as [|(u & [= ? ?] & _)]
                 | destruct Hb as [|(u & [= ? ?] & _)]]; done. }
        apply elem_of_elements in Hin. rewrite Hrows in Hin.
        by apply elem_of_nil in Hin.
      - intros ->. split; [by left|].
        split; right; [exists a | exists b]; (split; [done|]); set_solver. }
    by rewrite elements_singleton.
  - intros [= <- <-]. by rewrite Hfound, Hrows.
Qed.

Lemma create_thread_two_party_idempotent_witness :
  ∃ s1, create_thread ["A"; "B"] "A" "T1" 1 Threads.empty_store = Ok ("T1", s1)
      ∧ create_thread ["A"; "B"] "A" "T9" 7 s1 = Ok ("T1", s1).
Proof.
  destruct (create_thread ["A"; "B"] "A" "T1" 1 Threads.empty_store)
    as [[t s1]|e] eqn:Hrun; [|by vm_compute in Hrun].
  assert (t = "T1") as -> by (by vm_compute in Hrun; injection Hrun as <- _).
  exists s1. split; [done|].
  apply (create_thread_two_party_idempotent _ _ "T1" "T9" 1 7
           Threads.empty_store); [by vm_compute|done].
Defined.

(** X12. A successful [create_thread] involves existing users only and
    answers with a thread that has every requested participant; it
    leaves users and messages alone, and changes the participants of no
    thread other than the one it may create. *)
Theorem create_thread_participants
    (participant_ids : list string) (current_user new_id : string) (now : Z)
    (s s' : Store) (t : string) :
  create_thread participant_ids current_user new_id now s = Ok (t, s') →
  (∀ u, u ∈ participant_ids → u ∈ dom (users s) ∧ (t, u) ∈ thread_participants s')
  ∧ users s' = users s ∧ messages s' = messages s
  ∧ ∀ t' u, t' ≠ new_id →
      (t', u) ∈ thread_participants s' ↔ (t', u) ∈ thread_participants s.
Proof.
  unfold create_thread.
  destruct (length participant_ids <? 2)%nat; [done|].
  set (ps := list_to_set participant_ids ∪ {[current_user]} : gset string).
  destruct (size (filter (λ u, u ∈ ps) (dom (users s))) =? size ps)%nat
    eqn:Hfound; [|done].
  apply Nat.eqb_eq, found_users_all in Hfound. cbn [negb].
  assert (∀ u, u ∈ participant_ids → u ∈ ps) as Hreq by set_solver.
  assert (∀ r, insert_thread ps new_id now s = Ok r →
            (∀ u, u ∈ ps → (r.1, u) ∈ thread_participants r.2)
            ∧ users r.2 = users s ∧ messages r.2 = messages s
            ∧ ∀ t' u, t' ≠ new_id →
                (t', u) ∈ thread_participants r.2
                ↔ (t', u) ∈ thread_participants s) as Hnew.
  { intros r. unfold insert_thread.
    destruct (threads s !! new_id); [done|]. intros [= <-]. simpl.
    split; [|split; [done|split; [done|]]].
    - intros u Hu. apply elem_of_union. right. apply elem_of_map. by exists u.
    - intros t' u Hne. rewrite elem_of_union, elem_of_map.
      split; [intros [|(v & [= ? ?] & _)]; done | by left]. }
  assert (∀ r, insert_thread ps new_id now s = Ok r →
            (∀ u, u ∈ participant_ids →
               u ∈ dom (users s) ∧ (r.1, u) ∈ thread_participants r.2)
            ∧ users r.2 = users s ∧ messages r.2 = messages s
            ∧ ∀ t' u, t' ≠ new_id →
                (t', u) ∈ thread_participants r.2
                ↔ (t', u) ∈ thread_participants s) as Hnew'.
  { intros r Hr. destruct (Hnew r Hr) as (Hall & Hrest).
    split; [|done]. intros u Hu. split; [apply Hfound | apply Hall]; auto. }
  destruct (size ps =? 2)%nat eqn:Hsize; [|intros H; exact (Hnew' _ H)].
  apply Nat.eqb_eq in Hsize.
  destruct (elements (dedup_candidates ps s)) as [|t0 [|t1 rest]] eqn:Hrows;
    simpl; [intros H; exact (Hnew' _ H) | | done].
  intros [= <- <-].
  assert (t0 ∈ dedup_candidates ps s) as Hin.
  { apply elem_of_elements. rewrite Hrows. by left. }
  unfold dedup_candidates, dedup_subquery in Hin.
  apply elem_of_filter in Hin as [Hin _].
  apply elem_of_filter in Hin as [Hcount _].
  split; [|done]. intros u Hu.
  split; [by apply Hfound, Hreq|].
  apply (rows_among_both ps); auto.
Qed.

Lemma create_thread_participants_witness :
  ∃ s', create_thread ["B"; "C"] "A" "T1" 1 Threads.empty_store = Ok ("T1", s')
      ∧ ("T1", "C") ∈ thread_participants s'.
Proof.
  destruct (create_thread ["B"; "C"] "A" "T1" 1 Threads.empty_store)
    as [[t s']|e] eqn:Hrun; [|by vm_compute in Hrun].
  assert (t = "T1") as -> by (by vm_compute in Hrun; injection Hrun as <- _).
  exists s'. split; [done|].
  destruct (create_thread_participants _ _ _ _ _ _ _ Hrun) as (Hall & _).
  apply (Hall "C"). set_solver.
Defined.

(** X13. When one of the requested participants, or the caller, is no
    user of the store, [create_thread] fails with 404 "One or more
    participants not found", whether or not a thread to answer with
    exists. *)
Theorem create_thread_unknown_participant
    (participant_ids : list string) (current_user new_id : string) (now : Z)
    (s : Store) (u : string) :
  (2 ≤ length participant_ids)%nat →
  u ∈ current_user :: participant_ids →
  u ∉ dom (users s) →
  create_thread participant_ids current_user new_id now s
  = Raise (HTTPException 404 "One or more participants not found").
Proof.
  intros Hlen Hu Hunknown. unfold create_thread.
  apply Nat.ltb_ge in Hlen. rewrite Hlen.
  set (ps := list_to_set participant_ids ∪ {[current_user]} : gset string).
  destruct (size (filter (λ u, u ∈ ps) (dom (users s))) =? size ps)%nat
    eqn:Hfound; [|done].
  apply Nat.eqb_eq, found_users_all in Hfound.
  exfalso. apply Hunknown, Hfound.
  apply elem_of_cons in Hu as [->|Hu]; set_solver.
Qed.

Lemma create_thread_unknown_participant_witness :
  ("Z" ∉ dom (users Threads.two_threads))
  ∧ create_thread ["A"; "Z"] "B" "T3" 3 Threads.two_threads
    = Raise (HTTPException 404 "One or more participants not found").
Proof.
  assert ("Z" ∉ dom (users Threads.two_threads)) as Hz.
  { intros [v Hv]%elem_of_dom. by vm_compute in Hv. }
  split; [exact Hz|].
  apply (create_thread_unknown_participant _ _ _ _ _ "Z"); [simpl; lia| |exact Hz].
  set_solver.
Defined.

(** ** Typing indicators and read receipts over the WebSocket *)

Section Indicators.
Context (env : Env) (user_id : string) (websocket : nat).

(** The value of a field of a decoded frame, as [.get(key, default)]
    gives it. *)
Definition field (key : string) (dflt : json) (items : list (string * json))
  : json :=
  match assoc key items with Some v => v | None => dflt end.

(** The participants a typing indicator goes to. *)
Definition others (thread_id : json) (s : Store) : list string :=
  filter (λ p, p ≠ user_id) (participants_of thread_id s).

Lemma broadcast_to_thread_keeps_db message ps :
  keeps db (broadcast_to_thread env message ps).
Proof. by apply keeps_broadcast_to_thread. Qed.

Lemma typing_run items loc w :
  assoc "type" items = Some (JStr "typing") →
  truthy (field "thread_id" JNull items) = true →
  get_db env ≠ O →
  loop_body env user_id websocket (Some (JDict items)) loc w
  = ((broadcast_to_thread env
        (typing_frame (field "thread_id" JNull items) user_id
           (field "is_typing" (JBool false) items))
        (others (field "thread_id" JNull items) (db w))
        (set_pending [] w)).1,
     Ok {| new_message := new_message loc;
           participant_ids :=
             Some (others (field "thread_id" JNull items) (db w)) |}).
Proof.
  intros Hty Htid Hs.
  unfold loop_body, dict_get. rewrite Hty.
  unfold bind at 1, ret at 1.
  change (str_eqb (JStr "typing") "message") with false.
  change (str_eqb (JStr "typing") "typing") with true.
  cbv iota. unfold on_typing, dict_get.
  unfold bind at 1, ret at 1. unfold bind at 1, ret at 1.
  fold (field "thread_id" JNull items).
  fold (field "is_typing" (JBool false) items).
  rewrite Htid.
  destruct (get_db env) as [|k]; [done|].
  unfold bind at 1. cbn [async_for].
  unfold bind at 1, modify at 1. unfold bind at 1.
  unfold bind at 1, gets at 1, ret at 1. unfold ret at 1.
  unfold bind at 1, load_local at 1, ret at 1. cbn [participant_ids db set_pending].
  unfold bind.
  destruct (broadcast_to_thread_shape env
              (typing_frame (field "thread_id" JNull items) user_id
                 (field "is_typing" (JBool false) items))
              (others (field "thread_id" JNull items) (db w))
              (set_pending [] w)) as (evs & m' & E & _).
  unfold others in *. by rewrite E.
Qed.

(** X14. A [typing] frame with a thread is not persisted: the store is
    left as it was, the session goes on, and the typing frame is handed
    to a working connection once for every participant of the thread
    other than the sender that the connection is registered for. *)
Theorem typing_goes_to_the_others
    (items : list (string * json)) (loc : Locals) (w : World) (c : nat) :
  assoc "type" items = Some (JStr "typing") →
  truthy (field "thread_id" JNull items) = true →
  get_db env ≠ O →
  c ∉ broken env →
  let r := loop_body env user_id websocket (Some (JDict items)) loc w in
  let thread_id := field "thread_id" JNull items in
  (∃ loc', r.2 = Ok loc')
  ∧ db r.1 = db w
  ∧ (user_id ∉ others thread_id (db w))
  ∧ delivered c (trace r.1)
    = delivered c (trace w)
      ++ replicate (addressed c (manager w) (others thread_id (db w)))
           (typing_frame thread_id user_id
              (field "is_typing" (JBool false) items)).
Proof.
  intros Hty Htid Hs Hlive r thread_id. subst r.
  rewrite typing_run by done. simpl.
  split; [eauto|]. split; [by rewrite broadcast_to_thread_keeps_db|].
  split.
  - unfold others. rewrite list_elem_of_filter. by intros [? _].
  - by rewrite broadcast_to_thread_delivered.
Qed.

(** The world a [read_receipt] frame for a message that exists leaves
    before it broadcasts: no commit when the reader is recorded already;
    otherwise one commit, which writes the reader as the only one where
    nobody was recorded and writes nothing where somebody was. *)
Definition after_receipt (id : string) (m : DirectMessage) (w : World) : World :=
  if bool_decide (user_id ∈ default [] (dm_read_by m))
  then set_pending [] w
  else {| db := if bool_decide (default [] (dm_read_by m) = [])
                then set_messages
                       (alter (with_read_by [user_id]) id (messages (db w)))
                       (db w)
                else db w;
          pending := []; manager := manager w; bus := bus w; clock := clock w;
          next_uuid := next_uuid w; trace := trace w ++ [EvDbCommit] |}.

Lemma receipt_dispatch items loc w :
  assoc "type" items = Some (JStr "read_receipt") →
  truthy (field "message_id" JNull items) = true →
  truthy (field "thread_id" JNull items) = true →
  loop_body env user_id websocket (Some (JDict items)) loc w
  = bind (async_for (get_db env)
            (receipt_session env user_id (field "message_id" JNull items)
               (field "thread_id" JNull items)) loc)
      (λ loc',
         ps <- load_local "participant_ids" (participant_ids loc') ;;
         broadcast_to_thread env
           (receipt_frame (field "message_id" JNull items)
              (field "thread_id" JNull items) user_id) ps ;;;
         ret loc') w.
Proof.
  intros Hty Hmid Htid.
  unfold loop_body, dict_get. rewrite Hty.
  unfold bind at 1, ret at 1.
  change (str_eqb (JStr "read_receipt") "message") with false.
  change (str_eqb (JStr "read_receipt") "typing") with false.
  change (str_eqb (JStr "read_receipt") "read_receipt") with true.
  cbv iota. unfold on_read_receipt, dict_get.
  unfold bind at 1, ret at 1. unfold bind at 1, ret at 1.
  fold (field "message_id" JNull items).
  fold (field "thread_id" JNull items).
  by rewrite Hmid, Htid.
Qed.

Lemma receipt_run items loc w id m :
  assoc "type" items = Some (JStr "read_receipt") →
  truthy (field "message_id" JNull items) = true →
  truthy (field "thread_id" JNull items) = true →
  get_db env ≠ O →
  find_message (field "message_id" JNull items)
    (field "thread_id" JNull items) (db w) = Some (id, m) →
  loop_body env user_id websocket (Some (JDict items)) loc w
  = ((broadcast_to_thread env
        (receipt_frame (field "message_id" JNull items)
           (field "thread_id" JNull items) user_id)
        (participants_of (field "thread_id" JNull items) (db w))
        (after_receipt id m w)).1,
     Ok {| new_message := new_message loc;
           participant_ids :=
             Some (participants_of (field "thread_id" JNull items) (db w)) |}).
Proof.
  intros Hty Hmid Htid Hs Hfind.
  rewrite receipt_dispatch by done.
  destruct (get_db env) as [|k]; [done|].
  unfold bind at 1. cbn [async_for].
  unfold bind at 1, modify at 1. unfold bind at 1.
  unfold receipt_session, db_set_read_by, db_commit.
  unfold bind at 1, gets at 1. cbn [db set_pending]. rewrite Hfind.
  unfold after_receipt. rewrite list_items_read_by_or_empty.
  destruct (bool_decide (user_id ∈ default [] (dm_read_by m))).
  - run.
    destruct (broadcast_to_thread_shape env
                (receipt_frame (field "message_id" JNull items)
                   (field "thread_id" JNull items) user_id)
                (participants_of (field "thread_id" JNull items) (db w))
                (set_pending [] w)) as (evs & m' & E & _).
    by rewrite E.
  - run. rewrite remembered_read_by_append.
    destruct (held_by_row (read_by_or_empty m)) eqn:Hheld;
      [apply read_by_or_empty_held in Hheld;
       rewrite (bool_decide_false (default [] (dm_read_by m) = [])) by done
      |apply read_by_or_empty_new in Hheld;
       rewrite (bool_decide_true (default [] (dm_read_by m) = [])) by done;
       rewrite list_items_read_by_or_empty, Hheld];
      simpl; unfold emit, set_pending, set_db; simpl.
    all: repeat match goal with
    | |- context [participants_of ?t (set_messages ?ms ?s0)] =>
        change (participants_of t (set_messages ms s0))
          with (participants_of t s0)
    end.
    all: match goal with
    | |- context [broadcast_to_thread env ?f ?ps ?w0] =>
        destruct (broadcast_to_thread_shape env f ps w0) as (evs & m' & E & _)
    end.
    all: by rewrite E.
Qed.

(** X15. A [read_receipt] frame for a message of the named thread
    records the sender as a reader only where the message's [read_by]
    was NULL or empty, and then [read_by] is the sender alone; a
    [read_by] that lists somebody is left as stored, since the row's own
    list is changed in place and assigned back, which the session does
    not take for a change.  In every case the handler goes on to hand the
    receipt frame to every working connection, once for every participant
    of the thread the connection is registered for. *)
Theorem read_receipt_records_and_notifies
    (items : list (string * json)) (loc : Locals) (w : World)
    (id : string) (m : DirectMessage) (c : nat) :
  assoc "type" items = Some (JStr "read_receipt") →
  truthy (field "message_id" JNull items) = true →
  truthy (field "thread_id" JNull items) = true →
  get_db env ≠ O →
  find_message (field "message_id" JNull items)
    (field "thread_id" JNull items) (db w) = Some (id, m) →
  c ∉ broken env →
  let r := loop_body env user_id websocket (Some (JDict items)) loc w in
  (∃ loc', r.2 = Ok loc')
  ∧ read_list (db r.1) id
    = (if bool_decide (read_list (db w) id = [])
       then [user_id]
       else read_list (db w) id)
  ∧ delivered c (trace r.1)
    = delivered c (trace w)
      ++ replicate
           (addressed c (manager w)
              (participants_of (field "thread_id" JNull items) (db w)))
           (receipt_frame (field "message_id" JNull items)
              (field "thread_id" JNull items) user_id).
Proof.
  intros Hty Hmid Htid Hs Hfind Hlive r. subst r.
  rewrite (receipt_run items loc w id m) by done. simpl.
  pose proof (find_message_Some _ _ _ _ _ Hfind) as Hm.
  split; [eauto|].
  rewrite broadcast_to_thread_keeps_db, broadcast_to_thread_delivered by done.
  assert (read_list (db w) id = default [] (dm_read_by m)) as ->.
  { unfold read_list. by rewrite Hm. }
  unfold after_receipt.
  destruct (bool_decide (user_id ∈ default [] (dm_read_by m))) eqn:Hin; simpl.
  - apply bool_decide_eq_true in Hin. split; [|done].
    rewrite bool_decide_false.
    + unfold read_list. by rewrite Hm.
    + intros Hnil. rewrite Hnil in Hin. by apply elem_of_nil in Hin.
  - split.
    + destruct (bool_decide (default [] (dm_read_by m) = [])).
      * unfold read_list. simpl. by rewrite lookup_alter_eq, Hm.
      * unfold read_list. by rewrite Hm.
    + rewrite delivered_app. simpl. by rewrite app_nil_r.
Qed.

(** X16. A [read_receipt] frame naming a message that is not in the
    named thread, on a connection whose handler has not yet bound
    [participant_ids], raises [UnboundLocalError]: nothing is sent or
    stored and the receive loop ends. *)
Theorem read_receipt_for_unknown_message_raises
    (items : list (string * json)) (loc : Locals) (w : World) :
  assoc "type" items = Some (JStr "read_receipt") →
  truthy (field "message_id" JNull items) = true →
  truthy (field "thread_id" JNull items) = true →
  find_message (field "message_id" JNull items)
    (field "thread_id" JNull items) (db w) = None →
  participant_ids loc = None →
  ∃ w', loop_body env user_id websocket (Some (JDict items)) loc w
        = (w', Raise (UnboundLocalError "participant_ids"))
      ∧ db w' = db w ∧ trace w' = trace w ∧ manager w' = manager w.
Proof.
  intros Hty Hmid Htid Hfind Hloc.
  rewrite receipt_dispatch by done.
  destruct (get_db env) as [|k].
  - unfold bind at 1. cbn [async_for]. unfold ret at 1.
    unfold bind at 1. rewrite Hloc. simpl. by eexists.
  - unfold bind at 1. cbn [async_for].
    unfold bind at 1, modify at 1. unfold bind at 1.
    unfold receipt_session. unfold bind at 1, gets at 1.
    cbn [db set_pending]. rewrite Hfind. unfold ret at 1. unfold ret at 1.
    unfold bind at 1. rewrite Hloc. simpl. by eexists.
Qed.

End Indicators.

Lemma typing_goes_to_the_others_witness :
  (2%nat ∉ broken Scenario.env1)
  ∧ delivered 2
      (trace (loop_body Scenario.env1 "U1" 1
                (Some (JDict [("type", JStr "typing"); ("thread_id", JStr "T1");
                              ("is_typing", JBool true)]))
                fresh_locals Scenario.w1).1)
    = [typing_frame (JStr "T1") "U1" (JBool true)].
Proof.
  assert (2%nat ∉ broken Scenario.env1) as Hlive by by_computation.
  split; [exact Hlive|].
  destruct (typing_goes_to_the_others Scenario.env1 "U1" 1
              [("type", JStr "typing"); ("thread_id", JStr "T1");
               ("is_typing", JBool true)] fresh_locals Scenario.w1 2)
    as (_ & _ & _ & Hsent); [reflexivity|reflexivity|discriminate|exact Hlive|].
  rewrite Hsent. vm_compute. reflexivity.
Defined.

(** [w1] after [U1]'s message "hi" in [T1] was stored as [m]. *)
Definition with_message : World :=
  set_db (set_messages
            {[ "m" := stamp 10 (message_row "U1" [] (JStr "T1") (JStr "hi")) ]}
            Scenario.store1) Scenario.w1.

Lemma read_receipt_records_and_notifies_witness :
  let items := [("type", JStr "read_receipt"); ("message_id", JStr "m");
                ("thread_id", JStr "T1")] in
  let r := loop_body Scenario.env1 "U2" 2 (Some (JDict items))
             fresh_locals with_message in
  find_message (JStr "m") (JStr "T1") (db with_message)
  = Some ("m", stamp 10 (message_row "U1" [] (JStr "T1") (JStr "hi")))
  ∧ read_list (db with_message) "m" = ["U1"]
  ∧ read_list (db r.1) "m" = ["U1"]
  ∧ delivered 1 (trace r.1) = [receipt_frame (JStr "m") (JStr "T1") "U2"].
Proof.
  intros items r. subst r.
  assert (find_message (JStr "m") (JStr "T1") (db with_message)
          = Some ("m", stamp 10 (message_row "U1" [] (JStr "T1") (JStr "hi"))))
    as Hfind by (vm_compute; reflexivity).
  split; [exact Hfind|].
  split; [vm_compute; reflexivity|].
  assert (1%nat ∉ broken Scenario.env1) as Hlive by by_computation.
  destruct (read_receipt_records_and_notifies Scenario.env1 "U2" 2 items
              fresh_locals with_message "m"
              (stamp 10 (message_row "U1" [] (JStr "T1") (JStr "hi"))) 1)
    as (_ & Hread & Hsent);
    [reflexivity|reflexivity|reflexivity|discriminate|exact Hfind|exact Hlive|].
  split.
  - rewrite Hread. vm_compute. reflexivity.
  - rewrite Hsent. vm_compute. reflexivity.
Defined.

Lemma read_receipt_for_unknown_message_raises_witness :
  let items := [("type", JStr "read_receipt"); ("message_id", JStr "nope");
                ("thread_id", JStr "T1")] in
  find_message (JStr "nope") (JStr "T1") (db Scenario.w1) = None
  ∧ (step Scenario.env1 "U1" 1 (Some (JDict items)) fresh_locals Scenario.w1).2
    = Closed.
Proof.
  intros items.
  assert (find_message (JStr "nope") (JStr "T1") (db Scenario.w1) = None)
    as Hfind by (vm_compute; reflexivity).
  split; [exact Hfind|].
  destruct (read_receipt_for_unknown_message_raises Scenario.env1 "U1" 1 items
              fresh_locals Scenario.w1)
    as (w' & Hrun & _); [reflexivity|reflexivity|reflexivity|exact Hfind|reflexivity|].
  unfold step. by rewrite Hrun.
Defined.

(** ** What the WebSocket handler never writes *)

(** X17. No text received over the WebSocket, accepted or not, changes
    the users or the participants of any thread. *)
Theorem websocket_never_writes_membership
    (env : Env) (user_id : string) (websocket : nat) (data : option json)
    (loc : Locals) (w : World) :
  users (db (loop_body env user_id websocket data loc w).1) = users (db w)
  ∧ thread_participants (db (loop_body env user_id websocket data loc w).1)
    = thread_participants (db w).
Proof.
  split.
  - by apply (keeps_loop_body (λ w, users (db w))).
  - by apply (keeps_loop_body (λ w, thread_participants (db w))).
Qed.

(** ** The Redis channel *)

Section Channel.
Context (env : Env).

Lemma deliver_listed_strings data us w :
  deliver_listed env data (JStr <$> us) w = broadcast_to_thread env data us w.
Proof.
  revert w. induction us as [|u rest IH]; intros w; [done|].
  simpl. unfold bind.
  destruct (send_personal_message env data u w) as [w' [[]|e]]; [apply IH|done].
Qed.

(** X18. Neither [publish_message] nor [handle_redis_messages] ever
    raises, whatever the payloads and the state of Redis, and neither
    touches the store; with Redis down, publishing changes nothing at
    all. *)
Theorem channel_failures_are_swallowed (message : json) (w : World) :
  (publish_message env message w).2 = Ok tt
  ∧ (handle_redis_messages env w).2 = Ok tt
  ∧ db (publish_message env message w).1 = db w
  ∧ db (handle_redis_messages env w).1 = db w
  ∧ (redis_up env = false → (publish_message env message w).1 = w).
Proof.
  assert (∀ ps, keeps db (forward_payloads env ps)) as Hforward.
  { induction ps as [|data rest IH]; simpl; [apply keeps_ret|].
    destruct (user_ids_of data) as [ids|e]; [|apply keeps_raise].
    apply keeps_bind; [|done].
    induction ids as [|u ids IHids]; simpl; [apply keeps_ret|].
    apply keeps_bind; [|done].
    destruct u; try apply keeps_ret; try apply keeps_raise.
    by apply keeps_send_personal_message. }
  unfold publish_message, handle_redis_messages, bind, gets, try_except,
    redis_publish.
  split; [|split; [|split; [|split]]].
  - destruct (redis (manager w)); [|done]. by destruct (redis_up env).
  - destruct (pubsub (manager w)); [|done].
    by destruct (forward_payloads env (bus w) w) as [w' [[]|e]].
  - destruct (redis (manager w)); [|done]. by destruct (redis_up env).
  - destruct (pubsub (manager w)); [|done].
    pose proof (Hforward (bus w) w) as Hdb.
    by destruct (forward_payloads env (bus w) w) as [w' [[]|e]].
  - intros ->. by destruct (redis (manager w)).
Qed.

(** X19. Publish, then listen: a payload that lists its recipients
    under ["user_ids"], published by an instance whose manager holds a
    Redis connection, is put on the channel; an instance subscribed to
    it then hands the payload to each of its working connections, once
    for every listed user the connection is registered for. *)
Theorem published_payload_reaches_listed_users
    (items : list (string * json)) (us : list string) (a b : World) (c : nat) :
  redis (manager a) = true → redis_up env = true → bus a = [] →
  pubsub (manager b) = true →
  assoc "user_ids" items = Some (JList (JStr <$> us)) →
  c ∉ broken env →
  let a' := (publish_message env (JDict items) a).1 in
  let b' := (handle_redis_messages env (shared_with a' b)).1 in
  bus a' = [JDict items]
  ∧ delivered c (trace b')
    = delivered c (trace b) ++ replicate (addressed c (manager b) us) (JDict items).
Proof.
  intros Hredis Hup Hbus Hsub Hids Hlive a' b'. subst a' b'.
  unfold publish_message, bind, gets, try_except, redis_publish.
  rewrite Hredis, Hup. simpl. rewrite Hbus. split; [done|].
  unfold handle_redis_messages, bind, gets, try_except. simpl.
  rewrite Hsub. simpl. rewrite Hids. unfold bind.
  rewrite deliver_listed_strings.
  unfold addressed.
  match goal with
  | |- context [broadcast_to_thread env ?f ?ps ?w0] =>
      pose proof (broadcast_to_thread_delivered env f ps w0 c Hlive) as Hsent;
      destruct (broadcast_to_thread_shape env f ps w0) as (evs & m' & E & _)
  end.
  rewrite E in *. simpl in *. exact Hsent.
Qed.

End Channel.

Lemma published_payload_reaches_listed_users_witness :
  let items := [("type", JStr "notice"); ("user_ids", JList [JStr "U2"])] in
  (2%nat ∉ broken Scenario.env1)
  ∧ delivered 2
      (trace (handle_redis_messages Scenario.env1
                (shared_with
                   (publish_message Scenario.env1 (JDict items)
                      Scenario.instance_a).1
                   Scenario.instance_b)).1)
    = [JDict items].
Proof.
  intros items.
  assert (2%nat ∉ broken Scenario.env1) as Hlive by by_computation.
  split; [exact Hlive|].
  destruct (published_payload_reaches_listed_users Scenario.env1 items ["U2"]
              Scenario.instance_a Scenario.instance_b 2
              eq_refl eq_refl eq_refl eq_refl eq_refl Hlive)
    as (_ & Hsent).
  rewrite Hsent. vm_compute. reflexivity.
Defined.
